(** * Bayesian Personalized Ranking: the training kernel of [implicit/bpr.pyx]

    A shallow embedding of [BayesianPersonalizedRanking.fit], [_fit_gpu] and
    the Cython kernel [bpr_update], with the properties of the kernel and of
    the training entry point proved over it.

    Modelling choices.
    - C [float] and [double] values are IEEE-754 binary32 and binary64
      numbers, represented by [spec_float] with the operations of
      [SpecFloat] at precision 24/128 and 53/1024 (round to nearest even,
      every C operation rounded once, no contraction).
    - A two-dimensional array is its list of rows together with [shape1];
      [user], [liked] and [disliked] are pointers to rows of [X] and [Y], so
      a store through [liked] is seen through [disliked] when both name the
      same row.  [boundscheck] is off: an access outside an array has no
      defined result, which the kernel model reports as [None].
    - libm's [exp], the C++ generator and distribution, numpy's global
      generator, the processor count and the CUDA extension are not part of
      the repository: they are parameters of the development.
    - The parallel loop is run as a sequence of whole samples: a schedule
      lists, in the order in which they are processed, the worker and the
      loop index of every sample.  With one worker this is the program; with
      several it is the interleavings in which samples do not overlap. *)

From Stdlib Require Import ZArith Lia.
From Stdlib Require Import Floats.SpecFloat.
From stdpp Require Import base option list list_numbers strings.

#[local] Set Warnings "-clear-no-such-hyp".

Local Open Scope nat_scope.

(** ** Single and double precision numbers *)

Module Float.

Definition float := spec_float.
Definition double := spec_float.

Definition prec32 : Z := 24.
Definition emax32 : Z := 128.
Definition prec64 : Z := 53.
Definition emax64 : Z := 1024.

Definition f32_add : float -> float -> float := SFadd prec32 emax32.
Definition f32_sub : float -> float -> float := SFsub prec32 emax32.
Definition f32_mul : float -> float -> float := SFmul prec32 emax32.
Definition f32_neg : float -> float := SFopp.

Definition f64_add : double -> double -> double := SFadd prec64 emax64.
Definition f64_div : double -> double -> double := SFdiv prec64 emax64.
Definition f64_ltb : double -> double -> bool := SFltb.

(** Every binary32 number is a binary64 number: the promotion is exact,
    and gives the number its binary64 mantissa and exponent. *)
Definition to_double (x : float) : double :=
  match x with
  | S754_finite s m e => binary_normalize prec64 emax64 (cond_Zopp s (Zpos m)) e s
  | _ => x
  end.

(** The conversion [(float) x] rounds to the nearest binary32 number. *)
Definition to_float (x : double) : float :=
  match x with
  | S754_finite s m e => binary_normalize prec32 emax32 (cond_Zopp s (Zpos m)) e s
  | _ => x
  end.

Definition f32_zero : float := S754_zero false.
Definition f32_one : float := SFone prec32 emax32.
Definition f64_one : double := SFone prec64 emax64.
Definition f64_half : double := S754_finite false 4503599627370496 (-53).

(** The conversion of an integer to single precision. *)
Definition f32_of_Z (n : Z) : float := binary_normalize prec32 emax32 n 0 false.

End Float.
Import Float.

(** ** Arrays *)

(** A [float[:, :]] buffer: [shape[0]] is the number of rows. *)
Record ndarray := { shape1 : nat; rows : list (list float) }.

Definition shape0 (A : ndarray) : nat := length (rows A).

(** The load [p[j]] through a pointer [p = &A[r, 0]]. *)
Definition rd (A : ndarray) (r j : nat) : option float :=
  row ← rows A !! r; row !! j.

(** The store [p[j] = v] through a pointer [p = &A[r, 0]]. *)
Definition wr (A : ndarray) (r j : nat) (v : float) : ndarray :=
  {| shape1 := shape1 A; rows := alter (<[j := v]>) r (rows A) |}.

(** Indexing an [int[:]] memoryview with a C [int]: [wraparound] is left on,
    so a negative index counts from the end; nothing checks the bounds. *)
Definition mv_index (v : list nat) (i : Z) : option nat :=
  let i' := if (i <? 0)%Z then (i + Z.of_nat (length v))%Z else i in
  if (i' <? 0)%Z then None else v !! Z.to_nat i'.

(** The lengths of the rows: the layout of the buffer. *)
Definition layout (A : ndarray) : list nat := length <$> rows A.

(** A buffer with [n] rows of [m] numbers. *)
Definition has_shape (A : ndarray) (n m : nat) : Prop :=
  shape1 A = m ∧ layout A = replicate n m.

(** The three rows of a sample hold the columns [0 .. factors]. *)
Definition rows_readable (X Y : ndarray) (u liked disliked factors : nat) : Prop :=
  ∀ j, j < factors + 1 →
       is_Some (rd X u j) ∧ is_Some (rd Y liked j) ∧ is_Some (rd Y disliked j).

(** ** The parameters: libm, the C++ generators *)

(** [std::uniform_int_distribution<int>(a, b)]. *)
Record uniform_int_distribution := { dist_a : Z; dist_b : Z }.

(** [std::mt19937] with the call operator of the distribution.  The standard
    promises a result in [[a, b]] (and a uniform one, which is not used). *)
Class Sampler := {
  mt19937 : Type;
  mt19937_seed : Z -> mt19937;
  draw : uniform_int_distribution -> mt19937 -> Z * mt19937;
  draw_range : forall d g,
    (dist_a d <= dist_b d)%Z -> (dist_a d <= (draw d g).1 <= dist_b d)%Z
}.

(** A loop [for j in range(...)] whose body may fault. *)
Fixpoint for_each {S : Type} (body : nat -> S -> option S) (js : list nat) (s : S)
  : option S :=
  match js with
  | [] => Some s
  | j :: js' => s' ← body j s; for_each body js' s'
  end.

(** ** The kernel [bpr_update] *)

Section Kernel.

Context `{Sampler}.
(** [double exp(double)] of libm. *)
Variable exp : double -> double.

(** [score = score + user[j] * (liked[j] - disliked[j])] *)
Definition score_body (X Y : ndarray) (u liked disliked : nat) (j : nat) (score : float)
  : option float :=
  uj ← rd X u j;
  lj ← rd Y liked j;
  dj ← rd Y disliked j;
  Some (f32_add score (f32_mul uj (f32_sub lj dj))).

Definition compute_score (X Y : ndarray) (u liked disliked : nat) (factors : nat)
  : option float :=
  for_each (score_body X Y u liked disliked) (seq 0 (factors + 1)) f32_zero.

(** [z = 1.0 / (1.0 + exp(score))]: computed in double precision, stored
    in the [float] variable [z]. *)
Definition sigmoid (score : float) : float :=
  to_float (f64_div f64_one (f64_add f64_one (exp (to_double score)))).

(** [if z < .5] *)
Definition ranked_correctly (z : float) : bool := f64_ltb (to_double z) f64_half.

(** The body of [for j in range(factors)]. *)
Definition sgd_body (u liked disliked : nat) (learning_rate reg z : float)
    (j : nat) (XY : ndarray * ndarray) : option (ndarray * ndarray) :=
  let '(X, Y) := XY in
  (* temp = user[j] *)
  temp ← rd X u j;
  (* user[j] += learning_rate * (z * (liked[j] - disliked[j]) - reg * user[j]) *)
  uj ← rd X u j;
  lj ← rd Y liked j;
  dj ← rd Y disliked j;
  let X := wr X u j
    (f32_add uj (f32_mul learning_rate
                   (f32_sub (f32_mul z (f32_sub lj dj)) (f32_mul reg uj)))) in
  (* liked[j] += learning_rate * (z * temp - reg * liked[j]) *)
  lj ← rd Y liked j;
  let Y := wr Y liked j
    (f32_add lj (f32_mul learning_rate
                   (f32_sub (f32_mul z temp) (f32_mul reg lj)))) in
  (* disliked[j] += learning_rate * (-z * temp - reg * disliked[j]) *)
  dj ← rd Y disliked j;
  let Y := wr Y disliked j
    (f32_add dj (f32_mul learning_rate
                   (f32_sub (f32_mul (f32_neg z) temp) (f32_mul reg dj)))) in
  Some (X, Y).

(** The two stores to the last column. *)
Definition bias_update (liked disliked : nat) (learning_rate reg z : float)
    (factors : nat) (Y : ndarray) : option ndarray :=
  (* liked[factors] += learning_rate * (z - reg * liked[factors]) *)
  lb ← rd Y liked factors;
  let Y := wr Y liked factors
    (f32_add lb (f32_mul learning_rate (f32_sub z (f32_mul reg lb)))) in
  (* disliked[factors] += learning_rate * (-z - reg * disliked[factors]) *)
  db ← rd Y disliked factors;
  let Y := wr Y disliked factors
    (f32_add db (f32_mul learning_rate (f32_sub (f32_neg z) (f32_mul reg db)))) in
  Some Y.

(** What one sample does once its three rows are known: score, test,
    update.  The Boolean tells whether [correct] is incremented. *)
Definition apply_sample (u liked disliked : nat) (learning_rate reg : float)
    (factors : nat) (X Y : ndarray) : option (ndarray * ndarray * bool) :=
  score ← compute_score X Y u liked disliked factors;
  let z := sigmoid score in
  '(X, Y) ← for_each (sgd_body u liked disliked learning_rate reg z)
                      (seq 0 factors) (X, Y);
  Y ← bias_update liked disliked learning_rate reg z factors Y;
  Some (X, Y, ranked_correctly z).

(** The state of the parallel region. *)
Record region := {
  rng : list mt19937;
  X_ : ndarray;
  Y_ : ndarray;
  correct : Z
}.

(** One iteration of the [prange] loop, run by worker [thread_id] for the
    loop index [i].  [factors = X.shape[1] - 1] is a C [int]: with no
    column it is [-1], both loops are empty and the last two stores fall
    before the rows. *)
Definition sample_body (dist : uniform_int_distribution)
    (userids itemids : list nat) (learning_rate reg : float)
    (thread_id i : nat) (s : region) : option region :=
  g ← rng s !! thread_id;
  let '(liked_index, g) := draw dist g in
  let '(disliked_index, g) := draw dist g in
  liked_id ← mv_index itemids liked_index;
  disliked_id ← mv_index itemids disliked_index;
  u ← mv_index userids liked_index;
  match shape1 (X_ s) with
  | 0 => None
  | S factors =>
      r ← apply_sample u liked_id disliked_id learning_rate reg
                        factors (X_ s) (Y_ s);
      let '(X, Y, hit) := (r : ndarray * ndarray * bool) in
      Some {| rng := <[thread_id := g]> (rng s);
              X_ := X; Y_ := Y;
              correct := if hit then (correct s + 1)%Z else correct s |}
  end.

(** A schedule: the worker and the loop index of each sample, in the order
    in which the samples are processed. *)
Definition schedule := list (nat * nat).

Fixpoint run_schedule (dist : uniform_int_distribution)
    (userids itemids : list nat) (learning_rate reg : float)
    (sched : schedule) (s : region) : option region :=
  match sched with
  | [] => Some s
  | (thread_id, i) :: sched' =>
      s' ← sample_body dist userids itemids learning_rate reg thread_id i s;
      run_schedule dist userids itemids learning_rate reg sched' s'
  end.

(** [bpr_update]: the generators are taken by reference and left advanced,
    the arrays are updated in place, [correct] is returned. *)
Definition bpr_update (rng0 : list mt19937) (dist : uniform_int_distribution)
    (userids itemids : list nat) (X Y : ndarray) (learning_rate reg : float)
    (num_threads : nat) (sched : schedule) : option region :=
  run_schedule dist userids itemids learning_rate reg sched
    {| rng := rng0; X_ := X; Y_ := Y; correct := 0 |}.

(** The schedules of [prange(samples)] on [num_threads] workers: every loop
    index is run once, by one of the workers. *)
Definition valid_schedule (num_threads samples : nat) (sched : schedule) : Prop :=
  sched.*2 ≡ₚ seq 0 samples ∧ Forall (fun p : nat * nat => p.1 < num_threads) sched.

(** The two draws of an iteration. *)
Definition draws (dist : uniform_int_distribution) (g : mt19937) : Z * Z * mt19937 :=
  let '(liked_index, g) := draw dist g in
  let '(disliked_index, g) := draw dist g in
  (liked_index, disliked_index, g).

(** The inputs on which no access leaves the arrays: [n] users and [m]
    items with [K + 1] columns, ids below [n] and [m], a distribution on
    the positions, a generator for every worker of the schedule. *)
Record kernel_inputs (dist : uniform_int_distribution) (userids itemids : list nat)
    (n m K : nat) (sched : schedule) (s : region) : Prop := {
  ki_lengths : length userids = length itemids;
  ki_dist : dist = {| dist_a := 0; dist_b := Z.of_nat (length itemids) - 1 |};
  ki_users : Forall (fun u => u < n) userids;
  ki_items : Forall (fun i => i < m) itemids;
  ki_X : has_shape (X_ s) n (S K);
  ki_Y : has_shape (Y_ s) m (S K);
  ki_workers : Forall (fun p : nat * nat => p.1 < length (rng s)) sched;
  ki_samples : sched = [] ∨ 0 < length itemids
}.

(** The score of the sample that worker [thread_id] is about to process,
    from the arrays as they are before its update. *)
Definition score_before_update (dist : uniform_int_distribution)
    (userids itemids : list nat) (thread_id : nat) (s : region) : option float :=
  g ← rng s !! thread_id;
  let '(p_liked, p_disliked, _) := draws dist g in
  liked ← mv_index itemids p_liked;
  disliked ← mv_index itemids p_disliked;
  u ← mv_index userids p_liked;
  compute_score (X_ s) (Y_ s) u liked disliked (shape1 (X_ s) - 1).

(** The scores of the processed samples, each taken before its update. *)
Fixpoint scores_before_update (dist : uniform_int_distribution)
    (userids itemids : list nat) (learning_rate reg : float)
    (sched : schedule) (s : region) : list float :=
  match sched with
  | [] => []
  | (thread_id, i) :: sched' =>
      match score_before_update dist userids itemids thread_id s,
            sample_body dist userids itemids learning_rate reg thread_id i s with
      | Some score, Some s' =>
          score :: scores_before_update dist userids itemids learning_rate reg sched' s'
      | _, _ => []
      end
  end.

(** The count of the test [z < .5]. *)
Definition ranked_correctly_count (scores : list float) : Z :=
  Z.of_nat (length (filter (fun score => ranked_correctly (sigmoid score) = true) scores)).

End Kernel.

(** ** The training entry point [fit] *)

(** The element types of the input matrices. *)
Inductive dtype := float32 | float64 | int32 | int64.

Global Instance dtype_eq_dec : EqDecision dtype.
Proof. solve_decision. Defined.

Inductive scalar := Int (n : Z) | Flt (x : double).

(** A [scipy.sparse.coo_matrix]: the triplet form [tocoo] returns.  The
    indices are non-negative and the three arrays are as long. *)
Record coo_matrix := {
  shape : nat * nat;
  row : list nat;
  col : list nat;
  data : list scalar;
  coo_dtype : dtype
}.

(** What the constructor of [coo_matrix] checks. *)
Definition coo_valid (m : coo_matrix) : Prop :=
  length (row m) = length (col m) ∧
  Forall (fun i => i < (shape m).1) (row m) ∧
  Forall (fun u => u < (shape m).2) (col m).

Definition astype_float32 (m : coo_matrix) : coo_matrix :=
  {| shape := shape m; row := row m; col := col m;
     data := (fun v => match v with
                       | Int n => Flt (f32_of_Z n)
                       | Flt x => Flt (to_float x)
                       end) <$> data m;
     coo_dtype := float32 |}.

(** [np.bincount]: one count for every value up to the largest. *)
Definition bincount (x : list nat) : list nat :=
  match x with
  | [] => []
  | _ => (fun v => length (filter (fun y => y = v) x)) <$> seq 0 (S (max_list x))
  end.

Inductive exn :=
  | IndexError
  | ValueError (msg : string)
  | ZeroDivisionError.

(** How a call ends: it returns, raises, or has left the arrays. *)
Inductive outcome := Returned | Raised (e : exn) | Undefined.

(** [A[counts == 0] = np.zeros(width)]: a Boolean index of another length
    than the array is an [IndexError]. *)
Definition zero_unrated (A : ndarray) (counts : list nat) (width : nat)
  : exn + ndarray :=
  if decide (length counts = shape0 A) then
    inr {| shape1 := shape1 A;
           rows := zip_with (fun (c : nat) r =>
                               if decide (c = 0) then replicate width f32_zero else r)
                            counts (rows A) |}
  else inl IndexError.

(** [A[:, j] = 1.0], on an array with more than [j] columns. *)
Definition set_column_one (A : ndarray) (j : nat) : ndarray :=
  {| shape1 := shape1 A; rows := (fun r => <[j := f32_one]> r) <$> rows A |}.

(** The attributes of a [BayesianPersonalizedRanking] object. *)
Record BayesianPersonalizedRanking := {
  factors : nat;
  learning_rate : double;
  regularization : double;
  iterations : nat;
  use_gpu : bool;
  num_threads : nat;
  item_factors : option ndarray;
  user_factors : option ndarray
}.

Definition set_item_factors (self : BayesianPersonalizedRanking) (A : ndarray) :=
  {| factors := factors self; learning_rate := learning_rate self;
     regularization := regularization self; iterations := iterations self;
     use_gpu := use_gpu self; num_threads := num_threads self;
     item_factors := Some A; user_factors := user_factors self |}.

Definition set_user_factors (self : BayesianPersonalizedRanking) (A : ndarray) :=
  {| factors := factors self; learning_rate := learning_rate self;
     regularization := regularization self; iterations := iterations self;
     use_gpu := use_gpu self; num_threads := num_threads self;
     item_factors := item_factors self; user_factors := Some A |}.

(** [__init__]: the factors are [None] until the first [fit]. *)
Definition init (factors : nat) (learning_rate regularization : double)
    (iterations : nat) (use_gpu : bool) (num_threads : nat) :=
  {| factors := factors; learning_rate := learning_rate;
     regularization := regularization; iterations := iterations;
     use_gpu := use_gpu; num_threads := num_threads;
     item_factors := None; user_factors := None |}.

(** numpy's global generator. *)
Class NumpyRandom := {
  np_state : Type;
  random_sample : np_state -> double * np_state;
  randint : Z -> np_state -> Z * np_state
}.

(** The machine: [multiprocessing.cpu_count()] and [implicit.cuda]. *)
Class Platform := {
  cpu_count : nat;
  HAS_CUDA : bool;
  cu_bpr_update :
    coo_matrix -> ndarray -> ndarray -> double -> double -> Z -> ndarray * ndarray * Z
}.

Section Fit.

Context `{Sampler} `{NumpyRandom} `{Platform}.
Variable exp : double -> double.

(** [np.random.rand(n, m).astype(np.float32)], filled in row-major order. *)
Fixpoint rand_row (m : nat) (np : np_state) : list float * np_state :=
  match m with
  | 0 => ([], np)
  | S m' =>
      let '(x, np) := random_sample np in
      let '(xs, np) := rand_row m' np in
      (to_float x :: xs, np)
  end.

Fixpoint rand_rows (n m : nat) (np : np_state) : list (list float) * np_state :=
  match n with
  | 0 => ([], np)
  | S n' =>
      let '(r, np) := rand_row m np in
      let '(rs, np) := rand_rows n' m np in
      (r :: rs, np)
  end.

Definition rand (n m : nat) (np : np_state) : ndarray * np_state :=
  let '(rs, np) := rand_rows n m np in ({| shape1 := m; rows := rs |}, np).

(** Lines 109-113: [item_factors] is assigned before the rows without
    ratings are cleared.  The array that [self.item_factors] names after
    these lines is returned with the object. *)
Definition init_item_factors (self : BayesianPersonalizedRanking)
    (Ciu : coo_matrix) (np : np_state)
  : BayesianPersonalizedRanking * np_state * (exn + ndarray) :=
  match item_factors self with
  | Some Y => (self, np, inr Y)
  | None =>
      let '(A, np) := rand (shape Ciu).1 (factors self + 1) np in
      match zero_unrated A (bincount (row Ciu)) (factors self + 1) with
      | inl e => (set_item_factors self A, np, inl e)
      | inr A' => (set_item_factors self A', np, inr A')
      end
  end.

(** Lines 115-121. *)
Definition init_user_factors (self : BayesianPersonalizedRanking)
    (Ciu : coo_matrix) (np : np_state)
  : BayesianPersonalizedRanking * np_state * (exn + ndarray) :=
  match user_factors self with
  | Some X => (self, np, inr X)
  | None =>
      let '(A, np) := rand (shape Ciu).2 (factors self + 1) np in
      match zero_unrated A (bincount (col Ciu)) (factors self + 1) with
      | inl e => (set_user_factors self A, np, inl e)
      | inr A' =>
          let A'' := set_column_one A' (factors self) in
          (set_user_factors self A'', np, inr A'')
      end
  end.

(** Lines 134-138: one generator per thread, seeded from numpy. *)
Fixpoint seed_rngs (n : nat) (np : np_state) : list mt19937 * np_state :=
  match n with
  | 0 => ([], np)
  | S n' =>
      let '(seed, np) := randint (2 ^ 31) np in
      let '(gs, np) := seed_rngs n' np in
      (mt19937_seed seed :: gs, np)
  end.

(** Lines 140-146.  The arguments of [log.debug] are evaluated whether or
    not the message is printed: [100.0 * correct / len(Ciu.row)] divides by
    zero when the matrix has no entry. *)
Fixpoint epochs (n epoch : nat) (rng0 : list mt19937)
    (dist : uniform_int_distribution) (Ciu : coo_matrix) (X Y : ndarray)
    (lr reg : float) (threads : nat) (scheds : nat -> schedule)
  : ndarray * ndarray * outcome :=
  match n with
  | 0 => (X, Y, Returned)
  | S n' =>
      match bpr_update exp rng0 dist (col Ciu) (row Ciu) X Y lr reg threads
                       (scheds epoch) with
      | None => (X, Y, Undefined)
      | Some s =>
          if decide (length (row Ciu) = 0)
          then (X_ s, Y_ s, Raised ZeroDivisionError)
          else epochs n' (S epoch) (rng s) dist Ciu (X_ s) (Y_ s) lr reg threads scheds
      end
  end.

(** The loop of [_fit_gpu]: the device matrices are copied back only after
    the last epoch. *)
Fixpoint gpu_epochs (n : nat) (Ciu : coo_matrix) (X Y : ndarray)
    (lr reg : double) (np : np_state) : option (ndarray * ndarray) * np_state :=
  match n with
  | 0 => (Some (X, Y), np)
  | S n' =>
      let '(seed, np) := randint (2 ^ 31) np in
      let '(X, Y, _) := cu_bpr_update Ciu X Y lr reg seed in
      if decide (length (row Ciu) = 0) then (None, np)
      else gpu_epochs n' Ciu X Y lr reg np
  end.

Definition _fit_gpu (self : BayesianPersonalizedRanking) (Ciu_host : coo_matrix)
    (X Y : ndarray) (np : np_state)
  : BayesianPersonalizedRanking * np_state * outcome :=
  if negb HAS_CUDA then
    (self, np, Raised (ValueError "No CUDA extension has been built, can't train on GPU."))
  else
    match gpu_epochs (iterations self) Ciu_host X Y
                     (learning_rate self) (regularization self) np with
    | (None, np) => (self, np, Raised ZeroDivisionError)
    | (Some (X, Y), np) =>
        (set_item_factors (set_user_factors self X) Y, np, Returned)
    end.

(** Lines 129-146: the default path. *)
Definition fit_cpu (self : BayesianPersonalizedRanking) (Ciu : coo_matrix)
    (X Y : ndarray) (np : np_state) (scheds : nat -> schedule)
  : BayesianPersonalizedRanking * np_state * outcome :=
  let threads := if decide (num_threads self = 0) then cpu_count else num_threads self in
  let '(rng0, np) := seed_rngs threads np in
  let dist := {| dist_a := 0; dist_b := Z.of_nat (length (row Ciu)) - 1 |} in
  let '(X, Y, out) :=
    epochs (iterations self) 0 rng0 dist Ciu X Y
           (to_float (learning_rate self)) (to_float (regularization self))
           threads scheds in
  (set_item_factors (set_user_factors self X) Y, np, out).

(** The number of workers of a call. *)
Definition threads_of (self : BayesianPersonalizedRanking) : nat :=
  if decide (num_threads self = 0) then cpu_count else num_threads self.

(** The distribution of a call: the positions of the index. *)
Definition dist_of (Ciu : coo_matrix) : uniform_int_distribution :=
  {| dist_a := 0; dist_b := Z.of_nat (length (row Ciu)) - 1 |}.

(** Lines 100-102. *)
Definition coerce (item_users : coo_matrix) : coo_matrix :=
  if decide (coo_dtype item_users = float32) then item_users
  else astype_float32 item_users.

Definition fit (self : BayesianPersonalizedRanking) (item_users : coo_matrix)
    (np : np_state) (scheds : nat -> schedule)
  : BayesianPersonalizedRanking * np_state * outcome :=
  let Ciu := coerce item_users in
  let '(self, np, r) := init_item_factors self Ciu np in
  match r with
  | inl e => (self, np, Raised e)
  | inr Y =>
      let '(self, np, r) := init_user_factors self Ciu np in
      match r with
      | inl e => (self, np, Raised e)
      | inr X =>
          if use_gpu self then _fit_gpu self Ciu X Y np
          else fit_cpu self Ciu X Y np scheds
      end
  end.

End Fit.

(** ** Reference instances of the parameters

    Small executable instances on which the model is run: a model of [exp]
    computed in fixed point, generators that replay a stream, a machine
    with two cores and no CUDA extension. *)

Module Reference.

(** Fixed point numbers with [frac] fractional bits. *)
Definition frac : Z := 1400.

Definition fx_mul (a b : Z) : Z := Z.shiftr (a * b) frac.

(** [sum + r^k/k! + r^(k+1)/(k+1)! + ...], [n] terms, from [term = r^(k-1)/(k-1)!]. *)
Fixpoint taylor (n : nat) (k : Z) (r term sum : Z) : Z :=
  match n with
  | 0 => sum
  | S n' =>
      let term' := (fx_mul term r / k)%Z in
      taylor n' (k + 1)%Z r term' (sum + term')%Z
  end.

Fixpoint square_n (n : nat) (a : Z) : Z :=
  match n with
  | 0 => a
  | S n' => square_n n' (fx_mul a a)
  end.

(** [exp x] as [exp (x / 2^10) ^ (2^10)], the inner value by its series;
    the result is rounded to double precision.  Beyond [|x| >= 2^10] the
    result overflows or underflows. *)
Definition exp (x : double) : double :=
  match x with
  | S754_nan => S754_nan
  | S754_zero _ => f64_one
  | S754_infinity false => S754_infinity false
  | S754_infinity true => S754_zero false
  | S754_finite s m e =>
      if (10 <? Z.log2 (Zpos m) + 1 + e)%Z then
        if s then S754_zero false else S754_infinity false
      else
        let r := cond_Zopp s (Z.shiftl (Zpos m) (e + frac - 10)) in
        let one := Z.shiftl 1 frac in
        let v := square_n 10 (taylor 60 1 r one one) in
        binary_normalize prec64 emax64 (2 * v + 1) (- frac - 1) false
  end.

(** A generator that replays the stream of its raw outputs; a draw reduces
    the next output into the range of the distribution. *)
Definition stream_draw (d : uniform_int_distribution) (g : list Z) : Z * list Z :=
  match g with
  | [] => (dist_a d, [])
  | x :: g' => ((dist_a d + x `mod` (dist_b d - dist_a d + 1))%Z, g')
  end.

Definition lcg (x : Z) : Z := ((1103515245 * x + 12345) `mod` 2 ^ 31)%Z.

(** The stream of a seed: the seed plus the triangular numbers. *)
Definition triangular : list Z :=
  Eval vm_compute in (fun k => (k * (k + 1) / 2)%Z) <$> seqZ 0 64.

Definition seed_stream (seed : Z) : list Z := (fun t => (seed + t)%Z) <$> triangular.

Lemma stream_draw_range d g :
  (dist_a d <= dist_b d)%Z -> (dist_a d <= (stream_draw d g).1 <= dist_b d)%Z.
Proof.
  intros Hab. destruct g as [|x g]; simpl; [lia|].
  pose proof (Z.mod_pos_bound x (dist_b d - dist_a d + 1)). lia.
Qed.

#[export] Instance stream_sampler : Sampler := {|
  mt19937 := list Z;
  mt19937_seed := seed_stream;
  draw := stream_draw;
  draw_range := stream_draw_range
|}.

(** numpy's generator as a linear congruential generator: its samples are
    sixteenths in [[0, 1)]. *)
Definition sixteenth (k : Z) : double :=
  binary_normalize prec64 emax64 (k `mod` 16) (-4) false.

#[export] Instance counter_random : NumpyRandom := {|
  np_state := Z;
  random_sample := fun st => (sixteenth (st / 65536), lcg st);
  randint := fun hi st => ((st / 65536) `mod` hi, lcg st)%Z
|}.

#[export] Instance two_cores : Platform := {|
  cpu_count := 2;
  HAS_CUDA := false;
  cu_bpr_update := fun _ X Y _ _ _ => (X, Y, 0%Z)
|}.

(** The schedule of one worker: the loop indices in order. *)
Definition sequential (samples : nat) : schedule := (fun i => (0, i)) <$> seq 0 samples.

(** Dyadic constants: [m * 2^e] in single precision. *)
Definition f32 (m e : Z) : float := binary_normalize prec32 emax32 m e false.
Definition f64 (m e : Z) : double := binary_normalize prec64 emax64 m e false.

(** *** The inputs of the examples *)

(** Two users and two items with one learned column, each user with one
    entry. *)
Definition X0 : ndarray :=
  {| shape1 := 2; rows := [[f32 1 (-1); f32_one]; [f32 1 (-2); f32_one]] |}.
Definition Y0 : ndarray :=
  {| shape1 := 2; rows := [[f32 1 (-1); f32 1 (-3)]; [f32 1 (-2); f32_zero]] |}.
Definition userids0 : list nat := [0; 1].
Definition itemids0 : list nat := [0; 1].
Definition dist0 : uniform_int_distribution := {| dist_a := 0; dist_b := 1 |}.
Definition eta : float := f32 1 (-4).
Definition lambda : float := f32 1 (-7).

(** One worker about to draw the positions 0 and 1, then 1 and 1. *)
Definition s0 : region :=
  {| rng := [[0; 1; 1; 1]%Z]; X_ := X0; Y_ := Y0; correct := 0 |}.

(** One worker about to draw the position 1 twice. *)
Definition s_twice : region :=
  {| rng := [[1; 1]%Z]; X_ := X0; Y_ := Y0; correct := 0 |}.

(** A user whose score for item 0 against item 1 is [2^-100]. *)
Definition X_tiny : ndarray :=
  {| shape1 := 2; rows := [[f32 1 (-100); f32_one]] |}.
Definition Y_tiny : ndarray :=
  {| shape1 := 2; rows := [[f32_one; f32_zero]; [f32_zero; f32_zero]] |}.
Definition s_tiny : region :=
  {| rng := [[0; 1; 0; 1]%Z]; X_ := X_tiny; Y_ := Y_tiny; correct := 0 |}.

(** Models with one learned column and one worker. *)
Definition new_model : BayesianPersonalizedRanking :=
  init 1 (f64 1 (-4)) (f64 1 (-7)) 2 false 1.
Definition gpu_model : BayesianPersonalizedRanking :=
  init 1 (f64 1 (-4)) (f64 1 (-7)) 2 true 1.

(** Two items and two users, user [k] liked item [k]. *)
Definition likes : coo_matrix :=
  {| shape := (2, 2); row := [0; 1]; col := [0; 1];
     data := [Flt f64_one; Flt f64_one]; coo_dtype := float32 |}.


(** One item and two users: user 1 liked the item, user 0 nothing. *)
Definition second_user_only : coo_matrix :=
  {| shape := (1, 2); row := [0]; col := [1];
     data := [Flt f64_one]; coo_dtype := float32 |}.

(** Two items and one user, who liked item 0: the last item has no
    entry. *)
Definition first_item_only : coo_matrix :=
  {| shape := (2, 1); row := [0]; col := [0];
     data := [Flt f64_one]; coo_dtype := float32 |}.

(** Three items and three users, user [k] liked item [k]. *)
Definition likes3 : coo_matrix :=
  {| shape := (3, 3); row := [0; 1; 2]; col := [0; 1; 2];
     data := [Flt f64_one; Flt f64_one; Flt f64_one]; coo_dtype := float32 |}.

Definition np0 : np_state := 12345%Z.

(** The model after a first call on [likes3]. *)
Definition after_likes3 : BayesianPersonalizedRanking * np_state * outcome :=
  Eval vm_compute in fit exp new_model likes3 np0 (fun _ => sequential 3).

Definition trained3 : BayesianPersonalizedRanking := after_likes3.1.1.


Definition after_likes_on_trained3 : BayesianPersonalizedRanking * np_state * outcome :=
  Eval vm_compute in fit exp trained3 likes after_likes3.1.2 (fun _ => sequential 2).

End Reference.

(** ** The update rules as the specification words them *)

Module Spec.

Section Rules.

(** The learning rate, the regularization and the coefficient [z]. *)
Variables eta lambda z : float.

(** [U[u][j] += eta * (z * (V[liked][j] - V[disliked][j]) - lambda * U[u][j])] *)
Definition user_rule (u_j liked_j disliked_j : float) : float :=
  f32_add u_j
    (f32_mul eta (f32_sub (f32_mul z (f32_sub liked_j disliked_j))
                          (f32_mul lambda u_j))).

(** [V[liked][j] += eta * (z * t - lambda * V[liked][j])] *)
Definition liked_rule (t liked_j : float) : float :=
  f32_add liked_j
    (f32_mul eta (f32_sub (f32_mul z t) (f32_mul lambda liked_j))).

(** [V[disliked][j] += eta * (-z * t - lambda * V[disliked][j])] *)
Definition disliked_rule (t disliked_j : float) : float :=
  f32_add disliked_j
    (f32_mul eta (f32_sub (f32_mul (f32_neg z) t) (f32_mul lambda disliked_j))).

(** [V[liked][bias] += eta * (z - lambda * V[liked][bias])] *)
Definition liked_bias_rule (b : float) : float :=
  f32_add b (f32_mul eta (f32_sub z (f32_mul lambda b))).

(** [V[disliked][bias] += eta * (-z - lambda * V[disliked][bias])] *)
Definition disliked_bias_rule (b : float) : float :=
  f32_add b (f32_mul eta (f32_sub (f32_neg z) (f32_mul lambda b))).

(** The value of a cell of [V] after the stores through [liked] and then
    through [disliked]: a row that is both receives both, in this order. *)
Definition item_after (liked disliked r : nat) (f g : float -> float) (y : float)
  : float :=
  let a := if decide (r = liked) then f y else y in
  if decide (r = disliked) then g a else a.

End Rules.


(** The count as the specification words it: the scores above zero. *)
Definition positive_scores (scores : list float) : Z :=
  Z.of_nat (length (filter (fun score => f64_ltb f32_zero (to_double score) = true) scores)).

End Spec.

(** The number in a cell, for the cells that exist. *)
Definition cell (A : ndarray) (r j : nat) : float := default f32_zero (rd A r j).

(** ** What the generators and the counts are measured with *)

(** The generator after [n] draws. *)
Fixpoint advance `{Sampler} (dist : uniform_int_distribution) (n : nat) (g : mt19937)
  : mt19937 :=
  match n with
  | 0 => g
  | S n' => advance dist n' (draw dist g).2
  end.

(** The number of samples that a schedule gives to a worker. *)
Definition samples_of (thread_id : nat) (sched : schedule) : nat :=
  length (filter (fun p : nat * nat => p.1 = thread_id) sched).

(** numpy's generator after [n] calls of [np.random.randint(2**31)]. *)
Fixpoint randints `{NumpyRandom} (n : nat) (np : np_state) : np_state :=
  match n with
  | 0 => np
  | S n' => randints n' (randint (2 ^ 31) np).2
  end.

(** Of [n] rows, the last one is named by none of the ids. *)
Definition last_unrated (n : nat) (ids : list nat) : Prop :=
  n ≠ 0 ∧ n - 1 ∉ ids.

(** numpy's generator after [n] numbers of [np.random.rand]. *)
Fixpoint random_samples `{NumpyRandom} (n : nat) (np : np_state) : np_state :=
  match n with
  | 0 => np
  | S n' => random_samples n' (random_sample np).2
  end.


(** Two objects with the same hyperparameters. *)
Definition same_settings (a b : BayesianPersonalizedRanking) : Prop :=
  factors a = factors b ∧ learning_rate a = learning_rate b ∧
  regularization a = regularization b ∧ iterations a = iterations b ∧
  use_gpu a = use_gpu b ∧ num_threads a = num_threads b.

(** ** Further inputs and runs on the reference instances *)

Module Runs.

Import Reference.

(** One worker about to draw the position 1 twice, then the position 0
    twice. *)
Definition s_pairs : region :=
  {| rng := [[1; 1; 0; 0]%Z]; X_ := X0; Y_ := Y0; correct := 0 |}.

(** The run of that worker, both samples. *)
Definition end_pairs : region :=
  Eval vm_compute in
    default s_pairs (bpr_update exp (rng s_pairs) dist0 userids0 itemids0 X0 Y0 eta lambda 1
                                (sequential 2)).

(** A new model called on [second_user_only]. *)
Definition after_second_user_only : BayesianPersonalizedRanking * np_state * outcome :=
  Eval vm_compute in fit exp new_model second_user_only np0 (fun _ => sequential 1).

(** One item and two users: user 0 liked the item, the last user
    nothing. *)
Definition first_user_only : coo_matrix :=
  {| shape := (1, 2); row := [0]; col := [0];
     data := [Flt f64_one]; coo_dtype := float32 |}.

(** Three items and three users, no entry. *)
Definition no_likes : coo_matrix :=
  {| shape := (3, 3); row := []; col := []; data := []; coo_dtype := float32 |}.

(** A machine with the CUDA extension, whose kernel is a stand-in that
    leaves the device matrices as they are. *)
Definition with_cuda : Platform := {|
  cpu_count := 2;
  HAS_CUDA := true;
  cu_bpr_update := fun _ X Y _ _ _ => (X, Y, 0%Z)
|}.

(** A model for the GPU that holds the factors [X0] and [Y0]. *)
Definition gpu_trained : BayesianPersonalizedRanking :=
  set_user_factors (set_item_factors gpu_model Y0) X0.

Definition after_gpu : BayesianPersonalizedRanking * np_state * outcome :=
  Eval vm_compute in
    @fit stream_sampler counter_random with_cuda exp gpu_trained likes np0 (fun _ => []).

End Runs.

(** * Properties *)

(** ** Loads and stores *)

Section Arrays.

Implicit Types (A : ndarray) (r j : nat) (v : float).

Lemma rd_wr A r j v r' j' :
  rd (wr A r j v) r' j' =
  if decide (r' = r ∧ j' = j) then (fun _ => v) <$> rd A r j else rd A r' j'.
Proof.
  unfold rd, wr; simpl. rewrite list_lookup_alter.
  destruct (decide (r' = r ∧ j' = j)) as [[-> ->]|Hne].
  - rewrite decide_True by done.
    destruct (rows A !! r) as [rw|]; simpl; [|done].
    rewrite list_lookup_insert.
    destruct (decide (j = j ∧ j < length rw)) as [[_ Hlt]|Hn].
    + apply lookup_lt_is_Some_2 in Hlt as [x ->]. done.
    + rewrite lookup_ge_None_2 by lia. done.
  - destruct (decide (r = r')) as [<-|Hr]; [|done].
    destruct (rows A !! r) as [rw|]; simpl; [|done].
    rewrite list_lookup_insert_ne; [done|]. naive_solver.
Qed.

Lemma rd_wr_ne A r j v r' j' :
  ¬ (r' = r ∧ j' = j) → rd (wr A r j v) r' j' = rd A r' j'.
Proof. intros Hne. by rewrite rd_wr, decide_False. Qed.

Lemma rows_wr_ne A r j v r' : r' ≠ r → rows (wr A r j v) !! r' = rows A !! r'.
Proof. intros Hne. simpl. by rewrite list_lookup_alter_ne. Qed.

Lemma layout_wr A r j v : layout (wr A r j v) = layout A.
Proof.
  unfold layout; simpl. apply list_eq; intros i.
  rewrite !list_lookup_fmap, list_lookup_alter.
  case_decide; subst; [|done].
  destruct (rows A !! i); simpl; [|done]. by rewrite length_insert.
Qed.

Lemma has_shape_rd A n m r j :
  has_shape A n m → r < n → j < m → is_Some (rd A r j).
Proof.
  intros [_ Hl] Hr Hj. unfold rd.
  assert (layout A !! r = Some m) as Hlr by (rewrite Hl; by apply lookup_replicate_2).
  unfold layout in Hlr. rewrite list_lookup_fmap in Hlr.
  destruct (rows A !! r) as [rw|]; simplify_eq/=.
  apply lookup_lt_is_Some_2. lia.
Qed.

Lemma has_shape_shape0 A n m : has_shape A n m → shape0 A = n.
Proof.
  intros [_ Hl]. unfold shape0.
  rewrite <-(length_fmap length (rows A)). fold (layout A).
  by rewrite Hl, length_replicate.
Qed.

Lemma has_shape_row A n m r rw :
  has_shape A n m → rows A !! r = Some rw → length rw = m ∧ r < n.
Proof.
  intros [_ Hl] Hr.
  assert (layout A !! r = Some (length rw)) as Hlr
    by (unfold layout; by rewrite list_lookup_fmap, Hr).
  rewrite Hl in Hlr. apply lookup_replicate in Hlr as [-> ?]. done.
Qed.


Lemma mv_index_elem_of (v : list nat) i x : mv_index v i = Some x → x ∈ v.
Proof.
  unfold mv_index. case_match; [done|]. apply list_elem_of_lookup_2.
Qed.

Lemma mv_index_in_range (v : list nat) i :
  (0 <= i < Z.of_nat (length v))%Z → mv_index v i = v !! Z.to_nat i.
Proof.
  intros Hi. unfold mv_index.
  destruct (Z.ltb_spec i 0); [lia|].
  destruct (Z.ltb_spec i 0); [lia|]. done.
Qed.

End Arrays.

Lemma for_each_cons {S : Type} (body : nat → S → option S) j js s :
  for_each body (j :: js) s = body j s ≫= for_each body js.
Proof. done. Qed.

(** ** One sample *)

Section Sample.

Context `{Sampler}.
Variable exp : double -> double.

Implicit Types (u liked disliked : nat) (learning_rate reg z : float).

Lemma cell_rd A r j x : rd A r j = Some x → cell A r j = x.
Proof. unfold cell. by intros ->. Qed.

(** Two stores in a row of [V], through [liked] and then through
    [disliked]. *)
Lemma two_stores_cells liked disliked Y j f g lj dj :
  rd Y liked j = Some lj → rd Y disliked j = Some dj →
  ∃ dj', rd (wr Y liked j (f lj)) disliked j = Some dj' ∧
    ∀ r j', rd (wr (wr Y liked j (f lj)) disliked j (g dj')) r j' =
            if decide (j' = j ∧ (r = liked ∨ r = disliked))
            then Some (Spec.item_after liked disliked r f g (cell Y r j))
            else rd Y r j'.
Proof.
  intros Hl Hd.
  exists (if decide (disliked = liked) then f lj else dj). split.
  { rewrite rd_wr. case_decide as Hc.
    - destruct Hc as [-> _]. rewrite decide_True, Hl by done. done.
    - rewrite decide_False by naive_solver. done. }
  intros r j'. rewrite !rd_wr. unfold Spec.item_after.
  pose proof (cell_rd _ _ _ _ Hl) as Hcl. pose proof (cell_rd _ _ _ _ Hd) as Hcd.
  repeat case_decide;
    repeat match goal with Hc : _ ∧ _ |- _ => destruct Hc end; simplify_eq/=;
    rewrite ?Hl, ?Hd; simpl; try done; try naive_solver congruence.
Qed.

(** One iteration of the update loop, cell by cell. *)
Lemma sgd_body_cells u liked disliked learning_rate reg z X Y j t lj dj :
  rd X u j = Some t → rd Y liked j = Some lj → rd Y disliked j = Some dj →
  ∃ X' Y', sgd_body u liked disliked learning_rate reg z j (X, Y) = Some (X', Y') ∧
    X' = wr X u j (Spec.user_rule learning_rate reg z t lj dj) ∧
    (∀ r j', rd Y' r j' =
             if decide (j' = j ∧ (r = liked ∨ r = disliked))
             then Some (Spec.item_after liked disliked r
                          (Spec.liked_rule learning_rate reg z t)
                          (Spec.disliked_rule learning_rate reg z t) (cell Y r j))
             else rd Y r j') ∧
    layout Y' = layout Y ∧ shape1 Y' = shape1 Y ∧
    (∀ r, r ≠ liked → r ≠ disliked → rows Y' !! r = rows Y !! r).
Proof.
  intros Hu Hl Hd.
  destruct (two_stores_cells liked disliked Y j
              (Spec.liked_rule learning_rate reg z t)
              (Spec.disliked_rule learning_rate reg z t) lj dj Hl Hd)
    as (dj' & Hd' & Hcells).
  eexists _, _. split.
  { unfold sgd_body. rewrite Hu; simpl. rewrite Hl; simpl. rewrite Hd; simpl.
    unfold Spec.liked_rule in Hd'. rewrite Hd'; simpl. done. }
  split; [done|]. split; [done|].
  split; [by rewrite !layout_wr|]. split; [done|].
  intros r Hrl Hrd. by rewrite !rows_wr_ne.
Qed.

(** The backward direction: an iteration that ends has read its cells. *)
Lemma sgd_body_reads u liked disliked learning_rate reg z X Y j X' Y' :
  sgd_body u liked disliked learning_rate reg z j (X, Y) = Some (X', Y') →
  ∃ t lj dj, rd X u j = Some t ∧ rd Y liked j = Some lj ∧ rd Y disliked j = Some dj.
Proof.
  unfold sgd_body. intros Hb.
  destruct (rd X u j) as [t|]; simplify_eq/=.
  destruct (rd Y liked j) as [lj|]; simplify_eq/=.
  destruct (rd Y disliked j) as [dj|]; simplify_eq/=.
  by eexists _, _, _.
Qed.

Lemma bias_update_cells liked disliked learning_rate reg z Y factors lb db :
  rd Y liked factors = Some lb → rd Y disliked factors = Some db →
  ∃ Y', bias_update liked disliked learning_rate reg z factors Y = Some Y' ∧
    (∀ r j', rd Y' r j' =
             if decide (j' = factors ∧ (r = liked ∨ r = disliked))
             then Some (Spec.item_after liked disliked r
                          (Spec.liked_bias_rule learning_rate reg z)
                          (Spec.disliked_bias_rule learning_rate reg z)
                          (cell Y r factors))
             else rd Y r j') ∧
    layout Y' = layout Y ∧ shape1 Y' = shape1 Y ∧
    (∀ r, r ≠ liked → r ≠ disliked → rows Y' !! r = rows Y !! r).
Proof.
  intros Hl Hd.
  destruct (two_stores_cells liked disliked Y factors
              (Spec.liked_bias_rule learning_rate reg z)
              (Spec.disliked_bias_rule learning_rate reg z) lb db Hl Hd)
    as (db' & Hd' & Hcells).
  eexists. split.
  { unfold bias_update. rewrite Hl; simpl.
    unfold Spec.liked_bias_rule in Hd'. rewrite Hd'; simpl. done. }
  split; [done|]. split; [by rewrite !layout_wr|]. split; [done|].
  intros r Hrl Hrd. by rewrite !rows_wr_ne.
Qed.

Lemma bias_update_reads liked disliked learning_rate reg z Y factors Y' :
  bias_update liked disliked learning_rate reg z factors Y = Some Y' →
  ∃ lb db, rd Y liked factors = Some lb ∧ rd Y disliked factors = Some db.
Proof.
  unfold bias_update. intros Hb.
  destruct (rd Y liked factors) as [lb|] eqn:Hl; simplify_eq/=.
  destruct (rd Y disliked factors) as [db|] eqn:Hd; [by eexists _, _|].
  rewrite rd_wr in Hb. case_decide as Hc.
  - destruct Hc as [Hc _]. rewrite Hc, Hl in Hd. done.
  - rewrite Hd in Hb. done.
Qed.

Lemma is_Some_rd_wr A r j v r' j' :
  is_Some (rd (wr A r j v) r' j') ↔ is_Some (rd A r' j').
Proof.
  rewrite rd_wr. case_decide as Hc; [|done].
  destruct Hc as [-> ->]. by rewrite fmap_is_Some.
Qed.

Lemma sgd_body_is_Some u liked disliked learning_rate reg z X Y j X' Y' :
  sgd_body u liked disliked learning_rate reg z j (X, Y) = Some (X', Y') →
  ∀ r j', (is_Some (rd X' r j') ↔ is_Some (rd X r j')) ∧
          (is_Some (rd Y' r j') ↔ is_Some (rd Y r j')).
Proof.
  intros Hb r j'.
  destruct (sgd_body_reads _ _ _ _ _ _ _ _ _ _ _ Hb) as (t & lj & dj & Hu & Hl & Hd).
  destruct (sgd_body_cells u liked disliked learning_rate reg z X Y j t lj dj Hu Hl Hd)
    as (X1 & Y1 & Hb' & -> & Hcells & _).
  rewrite Hb in Hb'. simplify_eq. split; [apply is_Some_rd_wr|].
  rewrite Hcells. case_decide as Hc; [|done].
  destruct Hc as [-> [->| ->]]; rewrite ?Hl, ?Hd; split; eauto.
Qed.

(** The update loop over a set of columns, cell by cell: a column is
    changed by its own iteration only. *)
Lemma sgd_loop_cells u liked disliked learning_rate reg z js :
  NoDup js →
  ∀ X Y,
  (∀ j, j ∈ js →
        is_Some (rd X u j) ∧ is_Some (rd Y liked j) ∧ is_Some (rd Y disliked j)) →
  ∃ X' Y',
    for_each (sgd_body u liked disliked learning_rate reg z) js (X, Y) = Some (X', Y') ∧
    (∀ r j, rd X' r j =
            if decide (r = u ∧ j ∈ js)
            then Some (Spec.user_rule learning_rate reg z
                         (cell X u j) (cell Y liked j) (cell Y disliked j))
            else rd X r j) ∧
    (∀ r j, rd Y' r j =
            if decide (j ∈ js ∧ (r = liked ∨ r = disliked))
            then Some (Spec.item_after liked disliked r
                         (Spec.liked_rule learning_rate reg z (cell X u j))
                         (Spec.disliked_rule learning_rate reg z (cell X u j))
                         (cell Y r j))
            else rd Y r j) ∧
    layout X' = layout X ∧ shape1 X' = shape1 X ∧
    layout Y' = layout Y ∧ shape1 Y' = shape1 Y ∧
    (∀ r, r ≠ u → rows X' !! r = rows X !! r) ∧
    (∀ r, r ≠ liked → r ≠ disliked → rows Y' !! r = rows Y !! r).
Proof.
  induction 1 as [|j0 js Hj0 Hnd IH]; intros X Y Hreads.
  { exists X, Y. split; [done|].
    split; [intros r j; rewrite decide_False; [done|by intros [_ ?%elem_of_nil]]|].
    split; [intros r j; rewrite decide_False; [done|by intros [?%elem_of_nil _]]|]. done. }
  destruct (Hreads j0) as ([t Hu] & [lj Hl] & [dj Hd]); [by left|].
  destruct (sgd_body_cells u liked disliked learning_rate reg z X Y j0 t lj dj Hu Hl Hd)
    as (X1 & Y1 & Hb & HX1 & HY1 & HlayY & HshY & HfrY).
  destruct (IH X1 Y1) as (X' & Y' & Hrun & HX' & HY' & HlX' & HsX' & HlY' & HsY' & HfX' & HfY').
  { intros j Hj. destruct (Hreads j) as (? & ? & ?); [by right|].
    pose proof (sgd_body_is_Some _ _ _ _ _ _ _ _ _ _ _ Hb) as Hsome.
    split_and!; by apply Hsome. }
  assert (∀ r j, j ≠ j0 → cell X1 r j = cell X r j) as HcX.
  { intros r j Hj. unfold cell. subst X1. by rewrite rd_wr_ne by naive_solver. }
  assert (∀ r j, j ≠ j0 → cell Y1 r j = cell Y r j) as HcY.
  { intros r j Hj. unfold cell. rewrite HY1. by rewrite decide_False by naive_solver. }
  exists X', Y'. split; [by rewrite for_each_cons, Hb|].
  split; [|split].
  - intros r j. rewrite HX'.
    destruct (decide (j = j0)) as [->|Hj].
    + rewrite decide_False by naive_solver. subst X1. rewrite rd_wr.
      destruct (decide (r = u)) as [->|Hr].
      * rewrite !decide_True by ((split; [done|by left]) || done).
        rewrite Hu; simpl. by rewrite (cell_rd _ _ _ _ Hu), (cell_rd _ _ _ _ Hl),
                                      (cell_rd _ _ _ _ Hd).
      * by rewrite !decide_False by naive_solver.
    + destruct (decide (r = u ∧ j ∈ js)) as [[-> Hin]|Hn].
      * rewrite decide_True by (split; [done|by right]).
        by rewrite !HcX, !HcY by done.
      * rewrite decide_False by (rewrite elem_of_cons; naive_solver).
        subst X1. by rewrite rd_wr_ne by naive_solver.
  - intros r j. rewrite HY'.
    destruct (decide (j = j0)) as [->|Hj].
    + rewrite decide_False by naive_solver. rewrite HY1.
      destruct (decide (r = liked ∨ r = disliked)) as [Hr|Hr].
      * rewrite !decide_True by ((split; [done|done]) || (split; [by left|done])).
        by rewrite (cell_rd _ _ _ _ Hu).
      * by rewrite !decide_False by naive_solver.
    + destruct (decide (j ∈ js ∧ (r = liked ∨ r = disliked))) as [[Hin Hr]|Hn].
      * rewrite decide_True by (split; [by right|done]).
        by rewrite !HcX, !HcY by done.
      * rewrite decide_False by (rewrite elem_of_cons; naive_solver).
        rewrite HY1. by rewrite decide_False by naive_solver.
  - subst X1. rewrite layout_wr in HlX'. simpl in HsX'.
    split_and!; try congruence.
    + intros r Hr. rewrite HfX' by done. by rewrite rows_wr_ne.
    + intros r Hrl Hrd. rewrite HfY' by done. by apply HfrY.
Qed.

(** A loop that ends has read all its cells, already in the arrays it
    started from. *)
Lemma sgd_loop_reads u liked disliked learning_rate reg z js :
  ∀ X Y X' Y',
  for_each (sgd_body u liked disliked learning_rate reg z) js (X, Y) = Some (X', Y') →
  ∀ j, j ∈ js →
       is_Some (rd X u j) ∧ is_Some (rd Y liked j) ∧ is_Some (rd Y disliked j).
Proof.
  induction js as [|j0 js IH]; intros X Y X' Y' Hrun j Hj; [by apply elem_of_nil in Hj|].
  rewrite for_each_cons in Hrun.
  destruct (sgd_body u liked disliked learning_rate reg z j0 (X, Y))
    as [[X1 Y1]|] eqn:Hb; [|done]. simpl in Hrun.
  apply elem_of_cons in Hj as [->|Hj].
  - destruct (sgd_body_reads _ _ _ _ _ _ _ _ _ _ _ Hb) as (t & lj & dj & -> & -> & ->).
    eauto.
  - destruct (IH _ _ _ _ Hrun j Hj) as (? & ? & ?).
    pose proof (sgd_body_is_Some _ _ _ _ _ _ _ _ _ _ _ Hb) as Hsome.
    split_and!; by apply Hsome.
Qed.



Lemma score_loop_reads X Y u liked disliked js :
  ∀ acc sc, for_each (score_body X Y u liked disliked) js acc = Some sc →
  ∀ j, j ∈ js →
       is_Some (rd X u j) ∧ is_Some (rd Y liked j) ∧ is_Some (rd Y disliked j).
Proof.
  induction js as [|j0 js IH]; intros acc sc Hrun j Hj; [by apply elem_of_nil in Hj|].
  rewrite for_each_cons in Hrun.
  destruct (score_body X Y u liked disliked j0 acc) as [acc'|] eqn:Hb; [|done].
  simpl in Hrun. apply elem_of_cons in Hj as [->|Hj]; [|by eapply IH].
  unfold score_body in Hb.
  destruct (rd X u j0) as [x|]; [|done].
  destruct (rd Y liked j0) as [y|]; [|done].
  destruct (rd Y disliked j0) as [w|]; [|done]. eauto.
Qed.

Lemma score_loop_total X Y u liked disliked js :
  (∀ j, j ∈ js →
        is_Some (rd X u j) ∧ is_Some (rd Y liked j) ∧ is_Some (rd Y disliked j)) →
  ∀ acc, is_Some (for_each (score_body X Y u liked disliked) js acc).
Proof.
  induction js as [|j0 js IH]; intros Hreads acc; [by eexists|].
  destruct (Hreads j0) as ([x Hx] & [y Hy] & [w Hw]); [by left|].
  rewrite for_each_cons.
  assert (is_Some (score_body X Y u liked disliked j0 acc)) as [acc' ->].
  { unfold score_body. rewrite Hx, Hy, Hw. by eexists. }
  simpl. apply IH. intros j Hj. apply Hreads. by right.
Qed.

(** What a sample does to every cell of both arrays. *)
Lemma apply_sample_cells u liked disliked learning_rate reg factors X Y :
  rows_readable X Y u liked disliked factors →
  ∃ score X' Y',
    compute_score X Y u liked disliked factors = Some score ∧
    apply_sample exp u liked disliked learning_rate reg factors X Y =
      Some (X', Y', ranked_correctly (sigmoid exp score)) ∧
    (∀ r j, rd X' r j =
            if decide (r = u ∧ j < factors)
            then Some (Spec.user_rule learning_rate reg (sigmoid exp score)
                         (cell X u j) (cell Y liked j) (cell Y disliked j))
            else rd X r j) ∧
    (∀ r j, rd Y' r j =
            if decide (r = liked ∨ r = disliked) then
              if decide (j < factors) then
                Some (Spec.item_after liked disliked r
                        (Spec.liked_rule learning_rate reg (sigmoid exp score) (cell X u j))
                        (Spec.disliked_rule learning_rate reg (sigmoid exp score) (cell X u j))
                        (cell Y r j))
              else if decide (j = factors) then
                Some (Spec.item_after liked disliked r
                        (Spec.liked_bias_rule learning_rate reg (sigmoid exp score))
                        (Spec.disliked_bias_rule learning_rate reg (sigmoid exp score))
                        (cell Y r j))
              else rd Y r j
            else rd Y r j) ∧
    layout X' = layout X ∧ shape1 X' = shape1 X ∧
    layout Y' = layout Y ∧ shape1 Y' = shape1 Y ∧
    (∀ r, r ≠ u → rows X' !! r = rows X !! r) ∧
    (∀ r, r ≠ liked → r ≠ disliked → rows Y' !! r = rows Y !! r).
Proof.
  intros Hreads.
  destruct (score_loop_total X Y u liked disliked (seq 0 (factors + 1))) with (acc := f32_zero)
    as [score Hscore].
  { intros j Hj. apply Hreads. apply elem_of_seq in Hj. lia. }
  destruct (sgd_loop_cells u liked disliked learning_rate reg (sigmoid exp score)
              (seq 0 factors) (NoDup_seq 0 factors) X Y)
    as (X1 & Y1 & Hloop & HX1 & HY1 & HlX & HsX & HlY & HsY & HfX & HfY).
  { intros j Hj. apply Hreads. apply elem_of_seq in Hj. lia. }
  assert (∀ r, rd Y1 r factors = rd Y r factors) as HK.
  { intros r. rewrite HY1, decide_False; [done|].
    intros [Hin _]. apply elem_of_seq in Hin. lia. }
  destruct (Hreads factors) as (_ & [lb Hlb] & [db Hdb]); [lia|].
  destruct (bias_update_cells liked disliked learning_rate reg (sigmoid exp score)
              Y1 factors lb db) as (Y2 & Hbias & HY2 & HlY2 & HsY2 & HfY2).
  { by rewrite HK. } { by rewrite HK. }
  exists score, X1, Y2. split; [done|]. split.
  { unfold apply_sample, compute_score.
    rewrite Hscore; simpl. rewrite Hloop; simpl. rewrite Hbias. done. }
  split.
  { intros r j. rewrite HX1.
    destruct (decide (r = u ∧ j < factors)) as [[-> Hj]|Hn].
    - rewrite decide_True; [done|]. split; [done|]. apply elem_of_seq. lia.
    - rewrite decide_False; [done|]. rewrite elem_of_seq. naive_solver lia. }
  split.
  { intros r j. rewrite HY2, HY1.
    assert (cell Y1 r factors = cell Y r factors) as Hc by (unfold cell; by rewrite HK).
    destruct (decide (r = liked ∨ r = disliked)) as [Hr|Hr].
    - destruct (decide (j < factors)) as [Hj|Hj].
      + rewrite decide_False by lia. rewrite decide_True; [done|].
        split; [|done]. apply elem_of_seq. lia.
      + destruct (decide (j = factors)) as [->|Hj'].
        * rewrite decide_True by done. by rewrite Hc.
        * rewrite decide_False by naive_solver. rewrite decide_False; [done|].
          rewrite elem_of_seq. naive_solver lia.
    - rewrite decide_False by naive_solver. rewrite decide_False by naive_solver. done. }
  split_and!; try done; try congruence.
  intros r Hrl Hrd. rewrite HfY2 by done. by apply HfY.
Qed.

Lemma apply_sample_reads u liked disliked learning_rate reg factors X Y res :
  apply_sample exp u liked disliked learning_rate reg factors X Y = Some res →
  rows_readable X Y u liked disliked factors.
Proof.
  unfold apply_sample, compute_score. intros Hrun j Hj.
  destruct (for_each (score_body X Y u liked disliked) (seq 0 (factors + 1)) f32_zero)
    as [score|] eqn:Hscore; [|done].
  eapply score_loop_reads; [done|]. apply elem_of_seq. lia.
Qed.

End Sample.

(** ** One iteration of the parallel loop *)

Section Iteration.

Context `{Sampler}.
Variable exp : double -> double.

(** An iteration that ends has drawn two positions from the generator of
    its worker, has found its three rows there and has run the sample. *)
Lemma sample_body_inv dist userids itemids learning_rate reg thread_id i s s' :
  sample_body exp dist userids itemids learning_rate reg thread_id i s = Some s' →
  ∃ g p_liked p_disliked g' u liked disliked factors X' Y' hit,
    rng s !! thread_id = Some g ∧
    draws dist g = (p_liked, p_disliked, g') ∧
    mv_index userids p_liked = Some u ∧
    mv_index itemids p_liked = Some liked ∧
    mv_index itemids p_disliked = Some disliked ∧
    shape1 (X_ s) = S factors ∧
    apply_sample exp u liked disliked learning_rate reg factors (X_ s) (Y_ s)
      = Some (X', Y', hit) ∧
    s' = {| rng := <[thread_id := g']> (rng s); X_ := X'; Y_ := Y';
            correct := if hit then (correct s + 1)%Z else correct s |}.
Proof.
  unfold sample_body, draws. intros Hrun.
  destruct (rng s !! thread_id) as [g|]; [|done]. simpl in Hrun.
  destruct (draw dist g) as [p_liked g1] eqn:Hd1.
  destruct (draw dist g1) as [p_disliked g2] eqn:Hd2.
  destruct (mv_index itemids p_liked) as [liked|] eqn:Hl; [|done]. simpl in Hrun.
  destruct (mv_index itemids p_disliked) as [disliked|] eqn:Hdl; [|done]. simpl in Hrun.
  destruct (mv_index userids p_liked) as [u|] eqn:Hu; [|done]. simpl in Hrun.
  destruct (shape1 (X_ s)) as [|factors]; [done|].
  destruct (apply_sample exp u liked disliked learning_rate reg factors (X_ s) (Y_ s))
    as [[[X' Y'] hit]|] eqn:Hs; [|done].
  simpl in Hrun. simplify_eq.
  eexists g, p_liked, p_disliked, g2, u, liked, disliked, factors, X', Y', hit.
  rewrite Hd1, Hd2. done.
Qed.

Lemma sample_body_intro dist userids itemids learning_rate reg thread_id i s
    g p_liked p_disliked g' u liked disliked factors X' Y' hit :
  rng s !! thread_id = Some g →
  draws dist g = (p_liked, p_disliked, g') →
  mv_index userids p_liked = Some u →
  mv_index itemids p_liked = Some liked →
  mv_index itemids p_disliked = Some disliked →
  shape1 (X_ s) = S factors →
  apply_sample exp u liked disliked learning_rate reg factors (X_ s) (Y_ s)
    = Some (X', Y', hit) →
  sample_body exp dist userids itemids learning_rate reg thread_id i s =
    Some {| rng := <[thread_id := g']> (rng s); X_ := X'; Y_ := Y';
            correct := if hit then (correct s + 1)%Z else correct s |}.
Proof.
  unfold sample_body, draws. intros -> Hd Hu Hl Hdl -> Hs. simpl.
  destruct (draw dist g) as [p1 g1]. destruct (draw dist g1) as [p2 g2].
  simplify_eq. rewrite Hl; simpl. rewrite Hdl; simpl. rewrite Hu; simpl.
  by rewrite Hs.
Qed.

(** What an iteration leaves as it was. *)
Lemma sample_body_frame dist userids itemids learning_rate reg thread_id i s s' :
  sample_body exp dist userids itemids learning_rate reg thread_id i s = Some s' →
  (∀ r, r ∉ userids → rows (X_ s') !! r = rows (X_ s) !! r) ∧
  (∀ r, r ∉ itemids → rows (Y_ s') !! r = rows (Y_ s) !! r) ∧
  (∀ r j, shape1 (X_ s) ≤ S j → rd (X_ s') r j = rd (X_ s) r j) ∧
  layout (X_ s') = layout (X_ s) ∧ shape1 (X_ s') = shape1 (X_ s) ∧
  layout (Y_ s') = layout (Y_ s) ∧ shape1 (Y_ s') = shape1 (Y_ s) ∧
  length (rng s') = length (rng s) ∧
  (∀ t, t ≠ thread_id → rng s' !! t = rng s !! t) ∧
  (correct s <= correct s' <= correct s + 1)%Z.
Proof.
  intros Hrun.
  destruct (sample_body_inv _ _ _ _ _ _ _ _ _ Hrun)
    as (g & pl & pd & g' & u & liked & disliked & factors & X' & Y' & hit &
        Hg & Hd & Hu & Hl & Hdl & Hsh & Hs & ->).
  pose proof (apply_sample_reads exp _ _ _ _ _ _ _ _ _ Hs) as Hreads.
  destruct (apply_sample_cells exp u liked disliked learning_rate reg factors
              (X_ s) (Y_ s) Hreads)
    as (score & X1 & Y1 & _ & Hs' & HX & HY & HlX & HsX & HlY & HsY & HfX & HfY).
  rewrite Hs in Hs'. simplify_eq. simpl.
  apply mv_index_elem_of in Hu, Hl, Hdl.
  split_and!; try done.
  - intros r Hr. apply HfX. by intros ->.
  - intros r Hr. apply HfY; by intros ->.
  - intros r j Hj. rewrite HX, decide_False; [done|]. intros [_ ?]. lia.
  - by rewrite length_insert.
  - intros t Ht. by rewrite list_lookup_insert_ne.
  - destruct (ranked_correctly _); lia.
  - destruct (ranked_correctly _); lia.
Qed.

End Iteration.

(** ** The update rule of a sample *)

Section UpdateRule.

Context `{Sampler}.
Variable exp : double -> double.


End UpdateRule.

(** ** A run of the parallel loop *)

Section Run.

Context `{Sampler}.
Variable exp : double -> double.

Lemma run_schedule_cons dist userids itemids learning_rate reg thread_id i sched s :
  run_schedule exp dist userids itemids learning_rate reg ((thread_id, i) :: sched) s =
  sample_body exp dist userids itemids learning_rate reg thread_id i s
  ≫= run_schedule exp dist userids itemids learning_rate reg sched.
Proof. done. Qed.

(** What a run leaves as it was: the rows of the users and of the items
    that no position names, the columns of [X] from the last one on, the
    shape of both arrays, the number of generators. *)
Lemma run_schedule_frame dist userids itemids learning_rate reg sched :
  ∀ s s',
  run_schedule exp dist userids itemids learning_rate reg sched s = Some s' →
  (∀ r, r ∉ userids → rows (X_ s') !! r = rows (X_ s) !! r) ∧
  (∀ r, r ∉ itemids → rows (Y_ s') !! r = rows (Y_ s) !! r) ∧
  (∀ r j, shape1 (X_ s) ≤ S j → rd (X_ s') r j = rd (X_ s) r j) ∧
  layout (X_ s') = layout (X_ s) ∧ shape1 (X_ s') = shape1 (X_ s) ∧
  layout (Y_ s') = layout (Y_ s) ∧ shape1 (Y_ s') = shape1 (Y_ s) ∧
  length (rng s') = length (rng s) ∧
  (correct s <= correct s' <= correct s + Z.of_nat (length sched))%Z.
Proof.
  induction sched as [|[t i] sched IH]; intros s s' Hrun.
  { simpl in Hrun. simplify_eq. split_and!; try done; simpl; lia. }
  rewrite run_schedule_cons in Hrun.
  destruct (sample_body exp dist userids itemids learning_rate reg t i s)
    as [s1|] eqn:Hb; [|done]. simpl in Hrun.
  destruct (sample_body_frame exp _ _ _ _ _ _ _ _ _ Hb)
    as (HX1 & HY1 & HK1 & HlX1 & HsX1 & HlY1 & HsY1 & Hr1 & _ & Hc1).
  destruct (IH _ _ Hrun) as (HX & HY & HK & HlX & HsX & HlY & HsY & Hr & Hc).
  split_and!; try congruence.
  - intros r Hr'. by rewrite HX, HX1.
  - intros r Hr'. by rewrite HY, HY1.
  - intros r j Hj. rewrite HK by lia. by apply HK1.
  - lia.
  - simpl length. lia.
Qed.

Lemma draw_position dist (v : list nat) g :
  dist = {| dist_a := 0; dist_b := Z.of_nat (length v) - 1 |} →
  0 < length v →
  ∃ x, mv_index v (draw dist g).1 = Some x ∧ x ∈ v.
Proof.
  intros -> Hv.
  pose proof (draw_range {| dist_a := 0; dist_b := Z.of_nat (length v) - 1 |} g) as Hr.
  simpl in Hr. specialize (Hr ltac:(lia)).
  rewrite mv_index_in_range by lia.
  destruct (lookup_lt_is_Some_2 v (Z.to_nat (draw {| dist_a := 0;
              dist_b := Z.of_nat (length v) - 1 |} g).1)) as [x Hx]; [lia|].
  exists x. split; [done|]. by eapply list_elem_of_lookup_2.
Qed.

Lemma sample_body_total dist userids itemids learning_rate reg n m K t i sched s :
  kernel_inputs dist userids itemids n m K ((t, i) :: sched) s →
  ∃ s', sample_body exp dist userids itemids learning_rate reg t i s = Some s' ∧
        kernel_inputs dist userids itemids n m K sched s'.
Proof.
  intros [Hlen Hdist Hus Hit HX HY Hw Hs].
  destruct Hs as [?|Hpos]; [done|].
  apply Forall_cons in Hw as [Ht Hw]. simpl in Ht.
  destruct (lookup_lt_is_Some_2 (rng s) t Ht) as [g Hg].
  destruct (draws dist g) as [[p_liked p_disliked] g'] eqn:Hd.
  assert (∃ u liked disliked,
            mv_index userids p_liked = Some u ∧ u ∈ userids ∧
            mv_index itemids p_liked = Some liked ∧ liked ∈ itemids ∧
            mv_index itemids p_disliked = Some disliked ∧ disliked ∈ itemids)
    as (u & liked & disliked & Hu & Huin & Hl & Hlin & Hdl & Hdin).
  { unfold draws in Hd.
    destruct (draw dist g) as [p1 g1] eqn:Hd1.
    destruct (draw dist g1) as [p2 g2] eqn:Hd2. injection Hd as -> -> ->.
    destruct (draw_position dist userids g) as (u & Hu & Huin);
      [by rewrite Hlen|lia|].
    destruct (draw_position dist itemids g Hdist Hpos) as (l & Hl & Hlin).
    destruct (draw_position dist itemids g1 Hdist Hpos) as (d & Hdl & Hdin).
    rewrite Hd1 in Hu, Hl. rewrite Hd2 in Hdl. simpl in *.
    by exists u, l, d. }
  rewrite Forall_forall in Hus, Hit.
  assert (rows_readable (X_ s) (Y_ s) u liked disliked K) as Hreads.
  { intros j Hj. split_and!; eapply has_shape_rd; eauto; lia. }
  destruct (apply_sample_cells exp u liked disliked learning_rate reg K
              (X_ s) (Y_ s) Hreads)
    as (score & X' & Y' & _ & Hrun & _ & _ & HlX & HsX & HlY & HsY & _).
  eexists. split.
  { eapply sample_body_intro; eauto. apply HX. }
  split; simpl; try done.
  - by apply Forall_forall.
  - by apply Forall_forall.
  - destruct HX as [? HlayX]. split; congruence.
  - destruct HY as [? HlayY]. split; congruence.
  - by rewrite length_insert.
  - by right.
Qed.

(** On such inputs the run ends. *)
Lemma run_schedule_total dist userids itemids learning_rate reg n m K sched :
  ∀ s, kernel_inputs dist userids itemids n m K sched s →
  ∃ s', run_schedule exp dist userids itemids learning_rate reg sched s = Some s' ∧
        kernel_inputs dist userids itemids n m K [] s'.
Proof.
  induction sched as [|[t i] sched IH]; intros s Hin.
  { exists s. split; [done|]. done. }
  destruct (sample_body_total _ _ _ learning_rate reg _ _ _ _ _ _ _ Hin)
    as (s1 & Hb & Hin1).
  destruct (IH _ Hin1) as (s' & Hrun & Hin').
  exists s'. split; [|done]. by rewrite run_schedule_cons, Hb.
Qed.

End Run.

(** ** The schedule and the count *)

Section Count.

Context `{Sampler}.
Variable exp : double -> double.

Lemma sample_body_score dist userids itemids learning_rate reg thread_id i s s' :
  sample_body exp dist userids itemids learning_rate reg thread_id i s = Some s' →
  ∃ score, score_before_update dist userids itemids thread_id s = Some score ∧
           correct s' = if ranked_correctly (sigmoid exp score)
                        then (correct s + 1)%Z else correct s.
Proof.
  intros Hrun.
  destruct (sample_body_inv exp _ _ _ _ _ _ _ _ _ Hrun)
    as (g & pl & pd & g' & u & liked & disliked & factors & X' & Y' & hit &
        Hg & Hd & Hu & Hl & Hdl & Hsh & Hs & ->).
  pose proof (apply_sample_reads exp _ _ _ _ _ _ _ _ _ Hs) as Hreads.
  destruct (apply_sample_cells exp u liked disliked learning_rate reg factors
              (X_ s) (Y_ s) Hreads) as (score & X1 & Y1 & Hscore & Hs' & _).
  rewrite Hs in Hs'. simplify_eq. exists score. split; [|done].
  unfold score_before_update. rewrite Hg; simpl. rewrite Hd, Hl; simpl.
  rewrite Hdl; simpl. rewrite Hu; simpl. rewrite Hsh.
  by replace (S factors - 1) with factors by lia.
Qed.

Lemma run_schedule_count dist userids itemids learning_rate reg sched :
  ∀ s s',
  run_schedule exp dist userids itemids learning_rate reg sched s = Some s' →
  let scores := scores_before_update exp dist userids itemids learning_rate reg sched s in
  length scores = length sched ∧
  correct s' = (correct s + ranked_correctly_count exp scores)%Z.
Proof.
  induction sched as [|[t i] sched IH]; intros s s' Hrun.
  { simpl in Hrun. simplify_eq. split; [done|]. unfold ranked_correctly_count.
    simpl. lia. }
  rewrite run_schedule_cons in Hrun.
  destruct (sample_body exp dist userids itemids learning_rate reg t i s)
    as [s1|] eqn:Hb; [|done]. simpl in Hrun.
  destruct (sample_body_score _ _ _ _ _ _ _ _ _ Hb) as (score & Hscore & Hc).
  destruct (IH _ _ Hrun) as [Hlen Hcount].
  cbn [scores_before_update]. rewrite Hscore, Hb.
  split; [simpl; by rewrite Hlen|].
  rewrite Hcount, Hc. unfold ranked_correctly_count.
  rewrite filter_cons. destruct (ranked_correctly (sigmoid exp score)) eqn:Hz.
  - rewrite decide_True by done. simpl length. lia.
  - rewrite decide_False by done. lia.
Qed.

(** C3 (as amended).  On inputs that keep every access inside the arrays,
    [bpr_update] returns, and the count it returns is the number of
    processed samples whose [z = 1 / (1 + exp score)], rounded to single
    precision and taken from the score before the update of that sample,
    is below one half; there are as many scores as samples, and the count
    lies between [0] and the number of samples. *)
Theorem bpr_update_correct_count rng0 dist userids itemids X Y learning_rate reg
    num_threads sched n m K :
  valid_schedule num_threads (length userids) sched →
  kernel_inputs dist userids itemids n m K sched
    {| rng := rng0; X_ := X; Y_ := Y; correct := 0 |} →
  let scores :=
    scores_before_update exp dist userids itemids learning_rate reg sched
      {| rng := rng0; X_ := X; Y_ := Y; correct := 0 |} in
  ∃ s',
    bpr_update exp rng0 dist userids itemids X Y learning_rate reg num_threads sched
      = Some s' ∧
    length scores = length userids ∧
    correct s' = ranked_correctly_count exp scores ∧
    (0 <= correct s' <= Z.of_nat (length userids))%Z.
Proof.
  intros [Hperm _] Hin scores.
  destruct (run_schedule_total exp _ _ _ learning_rate reg _ _ _ _ _ Hin)
    as (s' & Hrun & _).
  exists s'. split; [done|].
  destruct (run_schedule_count _ _ _ _ _ _ _ _ Hrun) as [Hlen Hcount].
  fold scores in Hlen, Hcount. simpl in Hcount.
  assert (length sched = length userids) as Hn.
  { rewrite <-(length_fmap snd sched), Hperm. apply length_seq. }
  split; [congruence|]. split; [done|].
  rewrite Hcount. unfold ranked_correctly_count.
  pose proof (length_filter (fun score => ranked_correctly (sigmoid exp score) = true)
                scores). lia.
Qed.

(** The result of a run depends on the workers of the schedule, not on
    the loop indices they were given. *)
Lemma run_schedule_workers dist userids itemids learning_rate reg sched1 :
  ∀ sched2 s, sched1.*1 = sched2.*1 →
  run_schedule exp dist userids itemids learning_rate reg sched1 s =
  run_schedule exp dist userids itemids learning_rate reg sched2 s.
Proof.
  induction sched1 as [|[t i] sched1 IH]; intros [|[t' i'] sched2] s Hw;
    simplify_eq/=; [done|].
  change (sample_body exp dist userids itemids learning_rate reg t' i' s)
    with (sample_body exp dist userids itemids learning_rate reg t' i s).
  destruct (sample_body exp dist userids itemids learning_rate reg t' i s); [|done].
  simpl. by apply IH.
Qed.

Lemma valid_schedule_one_worker samples sched :
  valid_schedule 1 samples sched → sched.*1 = replicate samples 0.
Proof.
  intros [Hperm Hw].
  assert (length sched = samples) as <-.
  { rewrite <-(length_fmap snd sched), Hperm. apply length_seq. }
  clear Hperm. induction Hw as [|[t i] sched Ht Hw IH]; [done|].
  rewrite fmap_cons. simpl in Ht |- *. f_equal; [lia|done].
Qed.

(** C6.  With one worker the schedule has no say: any two runs of
    [bpr_update] from the same generators, positions and arrays end with
    the same generators, arrays and count. *)
Theorem bpr_update_single_worker_deterministic rng0 dist userids itemids X Y
    learning_rate reg sched1 sched2 :
  valid_schedule 1 (length userids) sched1 →
  valid_schedule 1 (length userids) sched2 →
  bpr_update exp rng0 dist userids itemids X Y learning_rate reg 1 sched1 =
  bpr_update exp rng0 dist userids itemids X Y learning_rate reg 1 sched2.
Proof.
  intros H1 H2. unfold bpr_update. apply run_schedule_workers.
  transitivity (replicate (length userids) 0);
    [|symmetry]; by apply valid_schedule_one_worker.
Qed.

End Count.

(** ** Sampling *)

Section Sampling.

Context `{Sampler}.
Variable exp : double -> double.

Lemma draws_range dist g p_liked p_disliked g' :
  (dist_a dist <= dist_b dist)%Z →
  draws dist g = (p_liked, p_disliked, g') →
  (dist_a dist <= p_liked <= dist_b dist)%Z ∧
  (dist_a dist <= p_disliked <= dist_b dist)%Z.
Proof.
  unfold draws. intros Hab Hd.
  pose proof (draw_range dist g Hab) as H1.
  destruct (draw dist g) as [p1 g1].
  pose proof (draw_range dist g1 Hab) as H2.
  destruct (draw dist g1) as [p2 g2]. by simplify_eq/=.
Qed.

(** C4.  Every iteration of the parallel loop, whichever loop index [i']
    it was given, draws two positions from the generator of its worker,
    the liked one first, both inside the index; it takes the user and the
    liked item at the first position and the disliked item at the second,
    and processes that sample, leaving the generator of the worker
    advanced by two draws and the other generators as they were.  Nothing
    is asked of the two positions or of the two items: a pair that is
    drawn twice is processed like any other. *)
Theorem bpr_update_sampling dist userids itemids learning_rate reg n m K
    thread_id i sched s :
  kernel_inputs dist userids itemids n m K ((thread_id, i) :: sched) s →
  ∃ g p_liked p_disliked g' u liked disliked X' Y' hit,
    rng s !! thread_id = Some g ∧
    draws dist g = (p_liked, p_disliked, g') ∧
    (0 <= p_liked < Z.of_nat (length userids))%Z ∧
    (0 <= p_disliked < Z.of_nat (length userids))%Z ∧
    userids !! Z.to_nat p_liked = Some u ∧
    itemids !! Z.to_nat p_liked = Some liked ∧
    itemids !! Z.to_nat p_disliked = Some disliked ∧
    apply_sample exp u liked disliked learning_rate reg K (X_ s) (Y_ s)
      = Some (X', Y', hit) ∧
    ∀ i', sample_body exp dist userids itemids learning_rate reg thread_id i' s =
          Some {| rng := <[thread_id := g']> (rng s); X_ := X'; Y_ := Y';
                  correct := if hit then (correct s + 1)%Z else correct s |}.
Proof.
  intros Hin.
  destruct (sample_body_total exp _ _ _ learning_rate reg _ _ _ _ _ _ _ Hin)
    as (s' & Hb & _).
  destruct (sample_body_inv exp _ _ _ _ _ _ _ _ _ Hb)
    as (g & pl & pd & g' & u & liked & disliked & factors & X' & Y' & hit &
        Hg & Hd & Hu & Hl & Hdl & Hsh & Hs & ->).
  destruct Hin as [Hlen Hdist _ _ HX _ _ [?|Hpos]]; [done|].
  assert (factors = K) as -> by (destruct HX as [HX _]; congruence).
  destruct (draws_range dist g pl pd g') as [Hpl Hpd]; [subst dist; simpl; lia|done|].
  subst dist. simpl in Hpl, Hpd.
  rewrite mv_index_in_range in Hu, Hl, Hdl by lia.
  exists g, pl, pd, g', u, liked, disliked, X', Y', hit.
  split_and!; try done; lia.
Qed.

End Sampling.

(** ** Initialisation *)

Section Init.

Context `{NumpyRandom}.

Lemma rand_row_length m : ∀ np, length (rand_row m np).1 = m.
Proof.
  induction m as [|m IH]; intros np; [done|]. simpl.
  destruct (random_sample np) as [x np1]. specialize (IH np1).
  destruct (rand_row m np1) as [xs np2]. simpl in *. by rewrite IH.
Qed.

Lemma rand_rows_layout n m : ∀ np, length <$> (rand_rows n m np).1 = replicate n m.
Proof.
  induction n as [|n IH]; intros np; [done|]. simpl.
  pose proof (rand_row_length m np) as Hr.
  destruct (rand_row m np) as [r np1]. specialize (IH np1).
  destruct (rand_rows n m np1) as [rs np2]. simpl in *. by f_equal.
Qed.

Lemma rand_has_shape n m np : has_shape (rand n m np).1 n m.
Proof.
  unfold rand. pose proof (rand_rows_layout n m np) as Hl.
  destruct (rand_rows n m np) as [rs np1]. by split.
Qed.

Lemma bincount_lookup x r c : bincount x !! r = Some c → (c = 0 ↔ r ∉ x).
Proof.
  unfold bincount. destruct x as [|x0 x]; [done|].
  rewrite list_lookup_fmap. intros Hc.
  apply fmap_Some in Hc as (v & Hv & ->). apply lookup_seq in Hv as [-> _].
  simpl (0 + r). split.
  - intros Hlen Hin. apply length_zero_iff_nil in Hlen.
    by apply (filter_nil_not_elem_of _ _ r Hlen).
  - intros Hnin. apply length_zero_iff_nil.
    destruct (filter (fun y => y = r) (x0 :: x)) as [|y l] eqn:Hf; [done|].
    assert (y ∈ filter (fun y => y = r) (x0 :: x)) as Hy by (rewrite Hf; by left).
    apply list_elem_of_filter in Hy as [-> Hy]. done.
Qed.

Lemma zero_unrated_rows A counts width :
  length counts = shape0 A →
  ∃ A', zero_unrated A counts width = inr A' ∧ shape1 A' = shape1 A ∧
    ∀ r, rows A' !! r =
         c ← counts !! r; rw ← rows A !! r;
         Some (if decide (c = 0) then replicate width f32_zero else rw).
Proof.
  intros Hlen. unfold zero_unrated. rewrite decide_True by done.
  eexists. split; [done|]. split; [done|]. intros r. simpl.
  rewrite lookup_zip_with. done.
Qed.

Lemma zero_unrated_has_shape A counts n m A' :
  has_shape A n m → zero_unrated A counts m = inr A' → has_shape A' n m.
Proof.
  intros HA. pose proof (has_shape_shape0 _ _ _ HA) as Hn.
  unfold zero_unrated. case_decide as Hlen; [|done]. intros [= <-].
  split; [apply HA|]. destruct HA as [Hs Hl]. rewrite <-Hl.
  unfold layout. simpl. apply list_eq. intros r.
  rewrite !list_lookup_fmap, lookup_zip_with.
  destruct (rows A !! r) as [rw|] eqn:Hr; simpl.
  - destruct (has_shape_row A n m r rw (conj Hs Hl) Hr) as [Hrw Hrn].
    destruct (lookup_lt_is_Some_2 counts r) as [c ->]; [unfold shape0 in *; lia|].
    simpl. case_decide; [|done]. by rewrite length_replicate, Hrw.
  - by destruct (counts !! r).
Qed.

Lemma set_column_one_rows A j r :
  rows (set_column_one A j) !! r = (fun rw => <[j := f32_one]> rw) <$> rows A !! r.
Proof. unfold set_column_one. simpl. by rewrite list_lookup_fmap. Qed.

Lemma set_column_one_has_shape A j n m :
  has_shape A n m → has_shape (set_column_one A j) n m.
Proof.
  intros [Hs Hl]. split; [done|]. unfold layout in *. simpl.
  rewrite <-Hl, <-list_fmap_compose. apply list_fmap_ext.
  intros i rw _. simpl. apply length_insert.
Qed.

Lemma set_column_one_rd A j n m r :
  has_shape A n m → r < n → j < m → rd (set_column_one A j) r j = Some f32_one.
Proof.
  intros HA Hr Hj. destruct (has_shape_rd A n m r j HA Hr Hj) as [x Hx].
  unfold rd in *. rewrite set_column_one_rows.
  destruct (rows A !! r) as [rw|]; simplify_eq/=.
  apply list_lookup_insert_eq. by eapply lookup_lt_Some.
Qed.

Lemma insert_last_replicate (K : nat) (x y : float) :
  <[K := y]> (replicate (K + 1) x) = replicate K x ++ [y].
Proof. induction K as [|K IH]; [done|]. simpl. by rewrite IH. Qed.

End Init.

(** ** Epochs *)

Section Epochs.

Context `{Sampler} `{NumpyRandom} `{Platform}.
Variable exp : double -> double.

Lemma seed_rngs_length n : ∀ np, length (seed_rngs n np).1 = n.
Proof.
  induction n as [|n IH]; intros np; [done|]. simpl.
  destruct (randint (2 ^ 31) np) as [seed np1]. specialize (IH np1).
  destruct (seed_rngs n np1) as [gs np2]. simpl in *. by rewrite IH.
Qed.

(** Whatever the number of epochs and however they end, the rows that no
    entry of the matrix names, the last column of [X] and the shapes are
    as they were. *)
Lemma epochs_frame dist Ciu learning_rate reg threads scheds n :
  ∀ epoch rng0 X Y X' Y' out,
  epochs exp n epoch rng0 dist Ciu X Y learning_rate reg threads scheds = (X', Y', out) →
  (∀ r, r ∉ col Ciu → rows X' !! r = rows X !! r) ∧
  (∀ r, r ∉ row Ciu → rows Y' !! r = rows Y !! r) ∧
  (∀ r j, shape1 X ≤ S j → rd X' r j = rd X r j) ∧
  layout X' = layout X ∧ shape1 X' = shape1 X ∧
  layout Y' = layout Y ∧ shape1 Y' = shape1 Y.
Proof.
  induction n as [|n IH]; intros epoch rng0 X Y X' Y' out Hrun; simpl in Hrun.
  { by simplify_eq. }
  destruct (bpr_update exp rng0 dist (col Ciu) (row Ciu) X Y learning_rate reg
              threads (scheds epoch)) as [s|] eqn:Hupd; [|by simplify_eq].
  destruct (run_schedule_frame exp _ _ _ _ _ _ _ _ Hupd)
    as (HX & HY & HK & HlX & HsX & HlY & HsY & _). simpl in *.
  case_decide.
  { by simplify_eq. }
  destruct (IH _ _ _ _ _ _ _ Hrun) as (HX' & HY' & HK' & HlX' & HsX' & HlY' & HsY').
  split_and!; try congruence.
  - intros r Hr. by rewrite HX', HX.
  - intros r Hr. by rewrite HY', HY.
  - intros r j Hj. rewrite HK' by lia. by apply HK.
Qed.

Lemma valid_schedule_inputs dist userids itemids n m K threads sched s :
  length userids = length itemids →
  dist = {| dist_a := 0; dist_b := Z.of_nat (length itemids) - 1 |} →
  Forall (fun u => u < n) userids → Forall (fun i => i < m) itemids →
  has_shape (X_ s) n (S K) → has_shape (Y_ s) m (S K) →
  length (rng s) = threads →
  valid_schedule threads (length userids) sched →
  kernel_inputs dist userids itemids n m K sched s.
Proof.
  intros Hlen Hdist Hu Hi HX HY Hr [Hperm Hw]. split; try done.
  - by rewrite Hr.
  - assert (length sched = length userids) as Hn.
    { rewrite <-(length_fmap snd sched), Hperm. apply length_seq. }
    destruct sched; [by left|right]. simpl in Hn. lia.
Qed.

(** On a well-formed index, with arrays that hold every id and schedules
    of the parallel loop, every epoch ends: the loop returns, or divides by
    zero after its first epoch when the index is empty. *)
Lemma epochs_total dist Ciu learning_rate reg threads scheds nu ni K :
  length (col Ciu) = length (row Ciu) →
  dist = {| dist_a := 0; dist_b := Z.of_nat (length (row Ciu)) - 1 |} →
  Forall (fun u => u < nu) (col Ciu) → Forall (fun i => i < ni) (row Ciu) →
  (∀ epoch, valid_schedule threads (length (col Ciu)) (scheds epoch)) →
  ∀ n epoch rng0 X Y,
  length rng0 = threads → has_shape X nu (S K) → has_shape Y ni (S K) →
  ∃ X' Y',
    epochs exp n epoch rng0 dist Ciu X Y learning_rate reg threads scheds =
      (X', Y', if decide (0 < n ∧ length (row Ciu) = 0)
               then Raised ZeroDivisionError else Returned) ∧
    has_shape X' nu (S K) ∧ has_shape Y' ni (S K).
Proof.
  intros Hlen Hdist Hu Hi Hsched.
  induction n as [|n IH]; intros epoch rng0 X Y Hr HX HY.
  { exists X, Y. rewrite decide_False by lia. done. }
  destruct (run_schedule_total exp dist (col Ciu) (row Ciu) learning_rate reg
              nu ni K (scheds epoch)
              {| rng := rng0; X_ := X; Y_ := Y; correct := 0 |})
    as (s & Hrun & Hin).
  { by eapply valid_schedule_inputs. }
  destruct (run_schedule_frame exp _ _ _ _ _ _ _ _ Hrun) as (_ & _ & _ & _ & _ & _ & _ & Hlr & _).
  simpl in Hlr. destruct Hin as [_ _ _ _ HX' HY' _ _].
  simpl. unfold bpr_update. rewrite Hrun.
  destruct (decide (length (row Ciu) = 0)) as [Hz|Hnz].
  - exists (X_ s), (Y_ s). rewrite decide_True by (split; [lia|done]). done.
  - destruct (IH (S epoch) (rng s) (X_ s) (Y_ s)) as (X' & Y' & Hep & HX'' & HY'');
      [congruence|done|done|].
    exists X', Y'. rewrite Hep.
    rewrite !decide_False by naive_solver. done.
Qed.

End Epochs.

(** ** The training entry point *)

Section Training.

Context `{Sampler} `{NumpyRandom} `{Platform}.
Variable exp : double -> double.

Lemma coerce_fields m :
  shape (coerce m) = shape m ∧ row (coerce m) = row m ∧ col (coerce m) = col m ∧
  coo_dtype (coerce m) = float32.
Proof. unfold coerce. by case_decide. Qed.

Lemma init_item_factors_fresh self Ciu np :
  item_factors self = None →
  length (bincount (row Ciu)) = (shape Ciu).1 →
  ∃ Y, init_item_factors self Ciu np =
         (set_item_factors self Y, (rand (shape Ciu).1 (factors self + 1) np).2, inr Y) ∧
    has_shape Y (shape Ciu).1 (factors self + 1) ∧
    ∀ i, i < (shape Ciu).1 → i ∉ row Ciu →
         rows Y !! i = Some (replicate (factors self + 1) f32_zero).
Proof.
  intros Hnone Hcount. unfold init_item_factors. rewrite Hnone.
  pose proof (rand_has_shape (shape Ciu).1 (factors self + 1) np) as HA.
  destruct (rand (shape Ciu).1 (factors self + 1) np) as [A np1]. simpl in HA.
  destruct (zero_unrated_rows A (bincount (row Ciu)) (factors self + 1))
    as (A' & Hz & Hs & Hrows).
  { by rewrite (has_shape_shape0 _ _ _ HA). }
  rewrite Hz. exists A'. split; [done|].
  split; [by eapply zero_unrated_has_shape|].
  intros i Hi Hnin. rewrite Hrows.
  destruct (lookup_lt_is_Some_2 (bincount (row Ciu)) i) as [c Hc]; [lia|].
  rewrite Hc. simpl. apply bincount_lookup in Hc.
  destruct (lookup_lt_is_Some_2 (rows A) i) as [rw ->].
  { fold (shape0 A). rewrite (has_shape_shape0 _ _ _ HA). lia. }
  simpl. rewrite decide_True; [done|]. by apply Hc.
Qed.

Lemma init_user_factors_fresh self Ciu np :
  user_factors self = None →
  length (bincount (col Ciu)) = (shape Ciu).2 →
  ∃ X, init_user_factors self Ciu np =
         (set_user_factors self X, (rand (shape Ciu).2 (factors self + 1) np).2, inr X) ∧
    has_shape X (shape Ciu).2 (factors self + 1) ∧
    (∀ u, u < (shape Ciu).2 → rd X u (factors self) = Some f32_one) ∧
    ∀ u, u < (shape Ciu).2 → u ∉ col Ciu →
         rows X !! u = Some (replicate (factors self) f32_zero ++ [f32_one]).
Proof.
  intros Hnone Hcount. unfold init_user_factors. rewrite Hnone.
  pose proof (rand_has_shape (shape Ciu).2 (factors self + 1) np) as HA.
  destruct (rand (shape Ciu).2 (factors self + 1) np) as [A np1]. simpl in HA.
  destruct (zero_unrated_rows A (bincount (col Ciu)) (factors self + 1))
    as (A' & Hz & Hs & Hrows).
  { by rewrite (has_shape_shape0 _ _ _ HA). }
  rewrite Hz. pose proof (zero_unrated_has_shape _ _ _ _ _ HA Hz) as HA'.
  eexists. split; [done|].
  split; [by apply set_column_one_has_shape|].
  split; [intros u Hu; eapply set_column_one_rd; [done|done|lia]|].
  intros u Hu Hnin. rewrite set_column_one_rows, Hrows.
  destruct (lookup_lt_is_Some_2 (bincount (col Ciu)) u) as [c Hc]; [lia|].
  rewrite Hc. simpl. apply bincount_lookup in Hc.
  destruct (lookup_lt_is_Some_2 (rows A) u) as [rw ->].
  { fold (shape0 A). rewrite (has_shape_shape0 _ _ _ HA). lia. }
  simpl. rewrite decide_True by (by apply Hc).
  by rewrite insert_last_replicate.
Qed.

(** The default path is the epochs, from the generators seeded from
    numpy. *)
Lemma fit_cpu_epochs self Ciu X Y np scheds :
  ∃ X' Y' out,
    epochs exp (iterations self) 0 (seed_rngs (threads_of self) np).1 (dist_of Ciu)
           Ciu X Y (to_float (learning_rate self)) (to_float (regularization self))
           (threads_of self) scheds = (X', Y', out) ∧
    fit_cpu exp self Ciu X Y np scheds =
      (set_item_factors (set_user_factors self X') Y',
       (seed_rngs (threads_of self) np).2, out).
Proof.
  unfold fit_cpu. fold (threads_of self). fold (dist_of Ciu).
  destruct (seed_rngs (threads_of self) np) as [rng0 np1]. simpl.
  destruct (epochs exp (iterations self) 0 rng0 (dist_of Ciu) Ciu X Y
              (to_float (learning_rate self)) (to_float (regularization self))
              (threads_of self) scheds) as [[X' Y'] out].
  by exists X', Y', out.
Qed.

(** C2 (as amended).  On a new model trained on the default path, when
    the counts of [np.bincount] reach the last item and the last user of
    the matrix, the call ends (it returns, or divides by zero when the
    matrix has no entry), and after its epochs, however many: the row of
    every item without an entry is all zero, and the row of every user
    without an entry is zero in its [K] learned columns and [1.0] in the
    last one. *)
Theorem fit_unrated_rows self m np scheds :
  item_factors self = None → user_factors self = None → use_gpu self = false →
  coo_valid m →
  length (bincount (row m)) = (shape m).1 →
  length (bincount (col m)) = (shape m).2 →
  (∀ epoch, valid_schedule (threads_of self) (length (col m)) (scheds epoch)) →
  ∃ self' np' out X Y,
    fit exp self m np scheds = (self', np', out) ∧
    (out = Returned ∨ out = Raised ZeroDivisionError ∧ length (row m) = 0) ∧
    user_factors self' = Some X ∧ item_factors self' = Some Y ∧
    (∀ i, i < (shape m).1 → i ∉ row m →
          rows Y !! i = Some (replicate (factors self + 1) f32_zero)) ∧
    (∀ u, u < (shape m).2 → u ∉ col m →
          rows X !! u = Some (replicate (factors self) f32_zero ++ [f32_one])).
Proof.
  intros Hi Hu Hgpu (Hlen & Hrows & Hcols) Hci Hcu Hsched.
  destruct (coerce_fields m) as (Hs & Hr & Hc & _).
  unfold fit. rewrite <-Hs, <-Hr, <-Hc in *. generalize dependent (coerce m).
  intros Ciu Hlen Hrows Hcols Hci Hcu Hsched.
  destruct (init_item_factors_fresh self Ciu np Hi Hci) as (Y0 & -> & HY0 & HzY).
  set (np1 := (rand (shape Ciu).1 (factors self + 1) np).2).
  destruct (init_user_factors_fresh (set_item_factors self Y0) Ciu np1 Hu Hcu)
    as (X0 & -> & HX0 & _ & HzX).
  set (np2 := (rand (shape Ciu).2 (factors (set_item_factors self Y0) + 1) np1).2).
  simpl use_gpu. rewrite Hgpu.
  set (self2 := set_user_factors (set_item_factors self Y0) X0).
  destruct (fit_cpu_epochs self2 Ciu X0 Y0 np2 scheds) as (X' & Y' & out & Hep & ->).
  simpl factors in HX0, HzX. rewrite Nat.add_1_r in HX0, HY0.
  destruct (epochs_total exp (dist_of Ciu) Ciu (to_float (learning_rate self2))
              (to_float (regularization self2)) (threads_of self2) scheds
              (shape Ciu).2 (shape Ciu).1 (factors self)
              (eq_sym Hlen) eq_refl Hcols Hrows Hsched (iterations self2) 0
              (seed_rngs (threads_of self2) np2).1 X0 Y0)
    as (X'' & Y'' & Hep' & _ & _); [apply seed_rngs_length|done|done|].
  rewrite Hep in Hep'. injection Hep' as <- <- ->.
  destruct (epochs_frame exp _ _ _ _ _ _ _ _ _ _ _ _ _ _ Hep)
    as (HfX & HfY & _).
  eexists _, _, _, X', Y'. split; [done|].
  split; [case_decide; naive_solver|]. split; [done|]. split; [done|]. split.
  - intros i Hlt Hnin. rewrite HfY by done. by apply HzY.
  - intros u Hlt Hnin. rewrite HfX by done. by apply HzX.
Qed.




Lemma fit_retained self m np scheds X Y :
  user_factors self = Some X → item_factors self = Some Y → use_gpu self = false →
  fit exp self m np scheds = fit_cpu exp self (coerce m) X Y np scheds.
Proof.
  intros HX HY Hgpu. unfold fit, init_item_factors, init_user_factors.
  by rewrite HY, HX, Hgpu.
Qed.




(** C10.  With both factor arrays kept from an earlier call, the lines
    that create the factors leave the object and numpy's generator as they
    are, and the call on the default path is the epochs run on the kept
    arrays: numpy's generator gives the seeds of the workers and nothing
    else, the rows that no entry names are not cleared, the last column of
    the user factors is not assigned, and with no epoch the arrays are as
    they were. *)
Theorem fit_reuses_factors self m np scheds X Y :
  user_factors self = Some X → item_factors self = Some Y → use_gpu self = false →
  (∀ Ciu np1,
     init_item_factors self Ciu np1 = (self, np1, inr Y) ∧
     init_user_factors self Ciu np1 = (self, np1, inr X)) ∧
  ∃ X' Y' out,
    epochs exp (iterations self) 0 (seed_rngs (threads_of self) np).1
           (dist_of (coerce m)) (coerce m) X Y
           (to_float (learning_rate self)) (to_float (regularization self))
           (threads_of self) scheds = (X', Y', out) ∧
    fit exp self m np scheds =
      (set_item_factors (set_user_factors self X') Y',
       (seed_rngs (threads_of self) np).2, out) ∧
    (∀ r, r ∉ col m → rows X' !! r = rows X !! r) ∧
    (∀ r, r ∉ row m → rows Y' !! r = rows Y !! r) ∧
    (∀ r, rd X' r (shape1 X - 1) = rd X r (shape1 X - 1)) ∧
    (iterations self = 0 → X' = X ∧ Y' = Y).
Proof.
  intros HX HY Hgpu. split.
  { intros Ciu np1. unfold init_item_factors, init_user_factors.
    by rewrite HX, HY. }
  rewrite (fit_retained _ _ _ _ _ _ HX HY Hgpu).
  destruct (fit_cpu_epochs self (coerce m) X Y np scheds)
    as (X' & Y' & out & Hep & Hcpu).
  exists X', Y', out. split; [done|]. split; [done|].
  destruct (epochs_frame exp _ _ _ _ _ _ _ _ _ _ _ _ _ _ Hep) as (HfX & HfY & HK & _).
  destruct (coerce_fields m) as (_ & Hr & Hc & _). rewrite Hr in HfY. rewrite Hc in HfX.
  split_and!; try done.
  - intros r. apply HK. lia.
  - intros Hz. rewrite Hz in Hep. simpl in Hep. by simplify_eq.
Qed.

End Training.

(** * Further properties of the kernel and of the entry point *)

(** ** The kernel: what it keeps, what it consumes *)

Section KernelExtras.

Context `{Sampler}.
Variable exp : double -> double.

(** X1.  A run of [bpr_update] that ends has resized nothing: both arrays
    have the number of rows, the row lengths and the [shape[1]] they had,
    there are as many generators as before, and the rows of the users and
    of the items that occur at no position of the index are as they
    were. *)
Theorem bpr_update_in_place rng0 dist userids itemids X Y learning_rate reg
    threads sched s' :
  bpr_update exp rng0 dist userids itemids X Y learning_rate reg threads sched
    = Some s' →
  shape0 (X_ s') = shape0 X ∧ layout (X_ s') = layout X ∧ shape1 (X_ s') = shape1 X ∧
  shape0 (Y_ s') = shape0 Y ∧ layout (Y_ s') = layout Y ∧ shape1 (Y_ s') = shape1 Y ∧
  length (rng s') = length rng0 ∧
  (∀ r, r ∉ userids → rows (X_ s') !! r = rows X !! r) ∧
  (∀ r, r ∉ itemids → rows (Y_ s') !! r = rows Y !! r).
Proof.
  intros Hrun.
  destruct (run_schedule_frame exp _ _ _ _ _ _ _ _ Hrun)
    as (HX & HY & _ & HlX & HsX & HlY & HsY & Hr & _). simpl in *.
  assert (∀ A B, layout A = layout B → shape0 A = shape0 B) as Hrows.
  { intros A B Hl. unfold shape0.
    rewrite <-(length_fmap length (rows A)), <-(length_fmap length (rows B)).
    by fold (layout A); fold (layout B); rewrite Hl. }
  split_and!; auto.
Qed.

Lemma advance_two dist g n :
  advance dist (2 * S n) g = advance dist (2 * n) (draw dist (draw dist g).2).2.
Proof. by replace (2 * S n) with (S (S (2 * n))) by lia. Qed.

Lemma draws_advance dist g p_liked p_disliked g' :
  draws dist g = (p_liked, p_disliked, g') → g' = (draw dist (draw dist g).2).2.
Proof.
  unfold draws. destruct (draw dist g) as [p1 g1]. simpl.
  destruct (draw dist g1) as [p2 g2]. simpl. by intros [= _ _ <-].
Qed.

Lemma samples_of_cons t t0 i sched :
  samples_of t ((t0, i) :: sched) =
  if decide (t0 = t) then S (samples_of t sched) else samples_of t sched.
Proof.
  unfold samples_of. rewrite (filter_cons (fun p : nat * nat => p.1 = t)). simpl.
  destruct (decide (t0 = t)); done.
Qed.

Lemma run_schedule_generators dist userids itemids learning_rate reg sched :
  ∀ s s',
  run_schedule exp dist userids itemids learning_rate reg sched s = Some s' →
  ∀ t, rng s' !! t = advance dist (2 * samples_of t sched) <$> rng s !! t.
Proof.
  induction sched as [|[t0 i] sched IH]; intros s s' Hrun t.
  { simpl in Hrun. simplify_eq. simpl. by destruct (rng s' !! t). }
  rewrite run_schedule_cons in Hrun.
  destruct (sample_body exp dist userids itemids learning_rate reg t0 i s)
    as [s1|] eqn:Hb; [|done]. simpl in Hrun.
  destruct (sample_body_inv exp _ _ _ _ _ _ _ _ _ Hb)
    as (g & pl & pd & g' & u & liked & disliked & factors & X' & Y' & hit &
        Hg & Hd & _ & _ & _ & _ & _ & ->).
  rewrite (IH _ _ Hrun t). simpl rng. rewrite samples_of_cons.
  destruct (decide (t0 = t)) as [->|Hne].
  - rewrite list_lookup_insert_eq by (by eapply lookup_lt_Some).
    rewrite Hg. cbv [fmap option_fmap option_map].
    by rewrite advance_two, (draws_advance _ _ _ _ _ Hd).
  - by rewrite list_lookup_insert_ne.
Qed.

(** X2.  A run of [bpr_update] that ends leaves the generator of every
    worker advanced by exactly two draws for each sample that the worker
    has run, whatever the order in which the workers took their turns: a
    worker without a sample keeps its generator, and a single worker that
    runs [N] samples has drawn [2 * N] times. *)
Theorem bpr_update_generators rng0 dist userids itemids X Y learning_rate reg
    threads sched s' :
  bpr_update exp rng0 dist userids itemids X Y learning_rate reg threads sched
    = Some s' →
  (∀ t g, rng0 !! t = Some g →
          rng s' !! t = Some (advance dist (2 * samples_of t sched) g)) ∧
  (∀ t g, rng0 !! t = Some g → samples_of t sched = 0 → rng s' !! t = Some g) ∧
  (valid_schedule 1 (length userids) sched →
   ∀ g, rng0 = [g] → rng s' = [advance dist (2 * length userids) g]).
Proof.
  intros Hrun. unfold bpr_update in Hrun.
  pose proof (run_schedule_generators _ _ _ _ _ _ _ _ Hrun) as Hgen. simpl in Hgen.
  split_and!.
  - intros t g Hg. by rewrite Hgen, Hg.
  - intros t g Hg Hz. by rewrite Hgen, Hg, Hz.
  - intros Hvalid g ->.
    assert (samples_of 0 sched = length userids) as Hall.
    { destruct Hvalid as [Hperm Hw].
      assert (length sched = length userids) as <-
        by (rewrite <-(length_fmap snd sched), Hperm; apply length_seq).
      clear Hperm Hrun Hgen.
      induction Hw as [|[t i] sched Ht Hw IHs]; [done|].
      rewrite samples_of_cons. simpl in Ht.
      rewrite decide_True by lia. simpl. by rewrite IHs. }
    destruct (run_schedule_frame exp _ _ _ _ _ _ _ _ Hrun)
      as (_ & _ & _ & _ & _ & _ & _ & Hlen & _). simpl in Hlen.
    pose proof (Hgen 0) as H0. simpl in H0. rewrite Hall in H0.
    destruct (rng s') as [|g1 [|g2 gs]]; simplify_eq/=. done.
Qed.

End KernelExtras.

(** ** The entry point: how a call ends, what it leaves *)

Section FitExtras.

Context `{Sampler} `{NumpyRandom} `{Platform}.
Variable exp : double -> double.

(** The count vector reaches the last row exactly when the last row is
    named. *)
Lemma bincount_length n (x : list nat) :
  Forall (fun i => i < n) x →
  length (bincount x) = n ↔ ¬ last_unrated n x.
Proof.
  intros Hx. unfold last_unrated, bincount. destruct x as [|x0 x].
  - simpl. split.
    + intros <- [? _]. done.
    + intros Hn. destruct n; [done|]. exfalso. apply Hn.
      split; [done|]. apply not_elem_of_nil.
  - rewrite length_fmap, length_seq.
    assert (max_list (x0 :: x) ∈ x0 :: x) as Hmax by (by apply max_list_elem_of).
    rewrite Forall_forall in Hx. pose proof (Hx _ Hmax) as Hlt. split.
    + intros <- [_ Hnin]. apply Hnin.
      by replace (S (max_list (x0 :: x)) - 1) with (max_list (x0 :: x)) by lia.
    + intros Hn. destruct (decide (n - 1 ∈ x0 :: x)) as [Hin|Hnin].
      * apply max_list_elem_of_le in Hin. lia.
      * exfalso. apply Hn. split; [lia|done].
Qed.

Lemma seed_rngs_state n : ∀ np, (seed_rngs n np).2 = randints n np.
Proof.
  induction n as [|n IH]; intros np; [done|]. simpl.
  destruct (randint (2 ^ 31) np) as [seed np1]. specialize (IH np1).
  destruct (seed_rngs n np1) as [gs np2]. simpl in *. done.
Qed.

(** A call on a new model whose count vectors reach the last item and the
    last user: the factors are created, then the path is chosen. *)
Lemma fit_new_initialised self m np scheds :
  item_factors self = None → user_factors self = None →
  length (bincount (row m)) = (shape m).1 →
  length (bincount (col m)) = (shape m).2 →
  ∃ X0 Y0,
    has_shape X0 (shape m).2 (S (factors self)) ∧
    has_shape Y0 (shape m).1 (S (factors self)) ∧
    (∀ u, u < (shape m).2 → rd X0 u (factors self) = Some f32_one) ∧
    (∀ u, u < (shape m).2 → u ∉ col m →
          rows X0 !! u = Some (replicate (factors self) f32_zero ++ [f32_one])) ∧
    (∀ i, i < (shape m).1 → i ∉ row m →
          rows Y0 !! i = Some (replicate (factors self + 1) f32_zero)) ∧
    fit exp self m np scheds =
      let self2 := set_user_factors (set_item_factors self Y0) X0 in
      let np2 := (rand (shape m).2 (factors self + 1)
                       (rand (shape m).1 (factors self + 1) np).2).2 in
      if use_gpu self then _fit_gpu self2 (coerce m) X0 Y0 np2
      else fit_cpu exp self2 (coerce m) X0 Y0 np2 scheds.
Proof.
  intros Hi Hu Hci Hcu.
  destruct (coerce_fields m) as (Hs & Hr & Hc & _).
  unfold fit. rewrite <-Hs, <-Hr, <-Hc in *. generalize dependent (coerce m).
  intros Ciu Hci Hcu.
  destruct (init_item_factors_fresh self Ciu np Hi Hci) as (Y0 & -> & HY0 & HzY).
  destruct (init_user_factors_fresh (set_item_factors self Y0) Ciu
              (rand (shape Ciu).1 (factors self + 1) np).2 Hu Hcu)
    as (X0 & -> & HX0 & Hone & HzX).
  simpl factors in *. rewrite Nat.add_1_r in HX0, HY0.
  exists X0, Y0. split_and!; try done.
Qed.


(** A call on a new model whose count vector reaches the last item and
    stops before the last user: the item factors are ready, the user
    factors are the numbers that numpy drew. *)
Lemma fit_new_user_index_error self m np scheds :
  item_factors self = None → user_factors self = None →
  length (bincount (row m)) = (shape m).1 →
  length (bincount (col m)) ≠ (shape m).2 →
  ∃ A Y0,
    A = (rand (shape m).2 (factors self + 1)
              (rand (shape m).1 (factors self + 1) np).2).1 ∧
    has_shape A (shape m).2 (S (factors self)) ∧
    has_shape Y0 (shape m).1 (S (factors self)) ∧
    fit exp self m np scheds =
      (set_user_factors (set_item_factors self Y0) A,
       (rand (shape m).2 (factors self + 1)
             (rand (shape m).1 (factors self + 1) np).2).2,
       Raised IndexError).
Proof.
  intros Hi Hu Hci Hcu.
  destruct (coerce_fields m) as (Hs & Hr & Hc & _).
  unfold fit. rewrite <-Hs, <-Hr, <-Hc in *. generalize dependent (coerce m).
  intros Ciu Hci Hcu.
  destruct (init_item_factors_fresh self Ciu np Hi Hci) as (Y0 & -> & HY0 & _).
  unfold init_user_factors. simpl user_factors. rewrite Hu. simpl factors.
  pose proof (rand_has_shape (shape Ciu).2 (factors self + 1)
                (rand (shape Ciu).1 (factors self + 1) np).2) as HA.
  destruct (rand (shape Ciu).2 (factors self + 1)
              (rand (shape Ciu).1 (factors self + 1) np).2) as [A np2]. simpl in *.
  unfold zero_unrated.
  rewrite decide_False by (by rewrite (has_shape_shape0 _ _ _ HA)).
  rewrite Nat.add_1_r in HA, HY0. by exists A, Y0.
Qed.

(** The default path on arrays that hold every id of the matrix. *)
Lemma fit_cpu_returns self Ciu X Y np scheds nu ni K :
  has_shape X nu (S K) → has_shape Y ni (S K) →
  length (row Ciu) = length (col Ciu) →
  Forall (fun u => u < nu) (col Ciu) → Forall (fun i => i < ni) (row Ciu) →
  (∀ epoch, valid_schedule (threads_of self) (length (col Ciu)) (scheds epoch)) →
  ∃ X' Y',
    fit_cpu exp self Ciu X Y np scheds =
      (set_item_factors (set_user_factors self X') Y', randints (threads_of self) np,
       if decide (0 < iterations self ∧ length (row Ciu) = 0)
       then Raised ZeroDivisionError else Returned) ∧
    has_shape X' nu (S K) ∧ has_shape Y' ni (S K) ∧
    (∀ r, r ∉ col Ciu → rows X' !! r = rows X !! r) ∧
    (∀ r, r ∉ row Ciu → rows Y' !! r = rows Y !! r) ∧
    (∀ r, rd X' r K = rd X r K).
Proof.
  intros HX HY Hlen Hcols Hrows Hsched.
  destruct (fit_cpu_epochs exp self Ciu X Y np scheds) as (X' & Y' & out & Hep & ->).
  destruct (epochs_total exp (dist_of Ciu) Ciu (to_float (learning_rate self))
              (to_float (regularization self)) (threads_of self) scheds
              nu ni K (eq_sym Hlen) eq_refl Hcols Hrows Hsched (iterations self) 0
              (seed_rngs (threads_of self) np).1 X Y)
    as (X'' & Y'' & Hep' & HX' & HY'); [apply seed_rngs_length|done|done|].
  rewrite Hep in Hep'. injection Hep' as <- <- ->.
  destruct (epochs_frame exp _ _ _ _ _ _ _ _ _ _ _ _ _ _ Hep) as (HfX & HfY & HK & _).
  exists X', Y'. rewrite seed_rngs_state. split_and!; try done.
  intros r. apply HK. destruct HX as [-> _]. lia.
Qed.




(** X5.  Two calls in a row on the same matrix, from a new model on the
    default path, when the last item and the last user have an entry: both
    calls return, and after the second one the rows of the items without
    an entry are still all zero, the rows of the users without an entry
    are still zero with [1.0] in the last column, and the last column of
    every user row is still [1.0]. *)
Theorem fit_twice self m np scheds1 scheds2 :
  item_factors self = None → user_factors self = None → use_gpu self = false →
  coo_valid m → 0 < length (row m) →
  ¬ last_unrated (shape m).1 (row m) → ¬ last_unrated (shape m).2 (col m) →
  (∀ epoch, valid_schedule (threads_of self) (length (col m)) (scheds1 epoch)) →
  (∀ epoch, valid_schedule (threads_of self) (length (col m)) (scheds2 epoch)) →
  ∃ self1 np1 self2 np2 X Y,
    fit exp self m np scheds1 = (self1, np1, Returned) ∧
    fit exp self1 m np1 scheds2 = (self2, np2, Returned) ∧
    user_factors self2 = Some X ∧ item_factors self2 = Some Y ∧
    (∀ u, u < (shape m).2 → rd X u (factors self) = Some f32_one) ∧
    (∀ u, u < (shape m).2 → u ∉ col m →
          rows X !! u = Some (replicate (factors self) f32_zero ++ [f32_one])) ∧
    (∀ i, i < (shape m).1 → i ∉ row m →
          rows Y !! i = Some (replicate (factors self + 1) f32_zero)).
Proof.
  intros Hi Hu Hgpu (Hlen & Hrows & Hcols) Hpos Hli Hlu Hs1 Hs2.
  apply (bincount_length _ _ Hrows) in Hli.
  apply (bincount_length _ _ Hcols) in Hlu.
  destruct (fit_new_initialised self m np scheds1 Hi Hu Hli Hlu)
    as (X0 & Y0 & HX0 & HY0 & Hone & HzX & HzY & Heq).
  rewrite Hgpu in Heq. simpl in Heq.
  destruct (coerce_fields m) as (_ & Hr & Hc & _).
  set (self0 := set_user_factors (set_item_factors self Y0) X0) in *.
  destruct (fit_cpu_returns self0 (coerce m) X0 Y0
              (rand (shape m).2 (factors self + 1)
                    (rand (shape m).1 (factors self + 1) np).2).2
              scheds1 (shape m).2 (shape m).1 (factors self) HX0 HY0)
    as (X1 & Y1 & Heq1 & HX1 & HY1 & HfX1 & HfY1 & HK1); rewrite ?Hr, ?Hc; try done.
  rewrite Hr, Hc in *. rewrite decide_False in Heq1 by lia.
  set (self1 := set_item_factors (set_user_factors self0 X1) Y1) in *.
  destruct (fit_cpu_returns self1 (coerce m) X1 Y1
              (randints (threads_of self0)
                 (rand (shape m).2 (factors self + 1)
                    (rand (shape m).1 (factors self + 1) np).2).2)
              scheds2 (shape m).2 (shape m).1 (factors self) HX1 HY1)
    as (X2 & Y2 & Heq2 & HX2 & HY2 & HfX2 & HfY2 & HK2); rewrite ?Hr, ?Hc; try done.
  rewrite Hr, Hc in *. rewrite decide_False in Heq2 by lia.
  eexists self1, _, _, _, X2, Y2. split; [by rewrite Heq, Heq1|].
  split; [by rewrite (fit_retained exp self1 m _ scheds2 X1 Y1 eq_refl eq_refl Hgpu), Heq2|].
  split; [done|]. split; [done|]. split_and!.
  - intros u Hlt. rewrite HK2, HK1. by apply Hone.
  - intros u Hlt Hnin. rewrite HfX2, HfX1 by done. by apply HzX.
  - intros i Hlt Hnin. rewrite HfY2, HfY1 by done. by apply HzY.
Qed.

(** X6.  A call on a new model that raises [IndexError] because the last
    user has no entry (the last item having one) leaves [user_factors] set
    to the numbers that numpy drew.  A second call on the same object and
    matrix does not raise: it skips the initialisation, trains and returns,
    and the last column of the user factors and the rows of the users
    without an entry are still those drawn numbers, neither [1.0] nor
    cleared. *)
Theorem fit_retry_after_index_error self m np scheds scheds2 :
  item_factors self = None → user_factors self = None → use_gpu self = false →
  coo_valid m → 0 < length (row m) →
  ¬ last_unrated (shape m).1 (row m) → last_unrated (shape m).2 (col m) →
  (∀ epoch, valid_schedule (threads_of self) (length (col m)) (scheds2 epoch)) →
  ∃ self1 np1 A self2 np2 X,
    fit exp self m np scheds = (self1, np1, Raised IndexError) ∧
    user_factors self1 = Some A ∧
    A = (rand (shape m).2 (factors self + 1)
              (rand (shape m).1 (factors self + 1) np).2).1 ∧
    fit exp self1 m np1 scheds2 = (self2, np2, Returned) ∧
    user_factors self2 = Some X ∧
    (∀ r, rd X r (factors self) = rd A r (factors self)) ∧
    (∀ u, u ∉ col m → rows X !! u = rows A !! u).
Proof.
  intros Hi Hu Hgpu (Hlen & Hrows & Hcols) Hpos Hli Hlu Hs2.
  apply (bincount_length _ _ Hrows) in Hli.
  assert (length (bincount (col m)) ≠ (shape m).2) as Hcu.
  { intros Heq. by apply (bincount_length _ _ Hcols) in Heq. }
  destruct (fit_new_user_index_error self m np scheds Hi Hu Hli Hcu)
    as (A & Y0 & HA & HsA & HsY & Heq).
  set (self1 := set_user_factors (set_item_factors self Y0) A) in *.
  destruct (coerce_fields m) as (_ & Hr & Hc & _).
  destruct (fit_cpu_returns self1 (coerce m) A Y0
              (rand (shape m).2 (factors self + 1)
                    (rand (shape m).1 (factors self + 1) np).2).2
              scheds2 (shape m).2 (shape m).1 (factors self) HsA HsY)
    as (X2 & Y2 & Heq2 & _ & _ & HfX2 & _ & HK2); rewrite ?Hr, ?Hc; try done.
  rewrite Hr, Hc in *. rewrite decide_False in Heq2 by lia.
  eexists self1, _, A, _, _, X2. split; [done|]. split; [done|]. split; [done|].
  split; [by rewrite (fit_retained exp self1 m _ scheds2 A Y0 eq_refl eq_refl Hgpu), Heq2|].
  split; [done|]. split; [done|]. intros u Hnin. by apply HfX2.
Qed.

Lemma random_samples_add n k np :
  random_samples (n + k) np = random_samples k (random_samples n np).
Proof. revert np. induction n as [|n IH]; intros np; simpl; [done|]. apply IH. Qed.

Lemma rand_row_state k np : (rand_row k np).2 = random_samples k np.
Proof.
  revert np. induction k as [|k IH]; intros np; simpl; [done|].
  destruct (random_sample np) as [x np1]. specialize (IH np1).
  destruct (rand_row k np1) as [xs np2]. done.
Qed.

Lemma rand_state n k np : (rand n k np).2 = random_samples (n * k) np.
Proof.
  unfold rand.
  assert ((rand_rows n k np).2 = random_samples (n * k) np) as Hrows.
  { revert np. induction n as [|n IH]; intros np; simpl; [done|].
    pose proof (rand_row_state k np) as Hrow.
    destruct (rand_row k np) as [r np1]. specialize (IH np1).
    destruct (rand_rows n k np1) as [rs np2]. simpl in *.
    by rewrite random_samples_add, <-Hrow. }
  by destruct (rand_rows n k np) as [rs np1].
Qed.

Lemma same_settings_trans a b c :
  same_settings a b → same_settings b c → same_settings a c.
Proof.
  unfold same_settings. intros (? & ? & ? & ? & ? & ?) (? & ? & ? & ? & ? & ?).
  split_and!; congruence.
Qed.

Lemma init_item_factors_cases self Ciu np :
  ∃ self1 r,
    init_item_factors self Ciu np =
      (self1,
       random_samples (match item_factors self with Some _ => 0
                               | None => (shape Ciu).1 * (factors self + 1) end) np,
       r) ∧
    same_settings self1 self ∧ user_factors self1 = user_factors self ∧
    (r = inl IndexError ∨ ∃ Y, r = inr Y ∧ item_factors self1 = Some Y).
Proof.
  unfold init_item_factors.
  destruct (item_factors self) as [Y|] eqn:HY.
  { exists self, (inr Y). split_and!; try done. right. by exists Y. }
  pose proof (rand_state (shape Ciu).1 (factors self + 1) np) as Hst.
  destruct (rand (shape Ciu).1 (factors self + 1) np) as [A np1]. simpl in Hst. subst np1.
  unfold zero_unrated. case_decide.
  - eexists _, _. split; [done|]. split_and!; try done. right. by eexists.
  - eexists _, _. split; [done|]. split_and!; try done. by left.
Qed.

Lemma init_user_factors_cases self Ciu np :
  ∃ self1 r,
    init_user_factors self Ciu np =
      (self1,
       random_samples (match user_factors self with Some _ => 0
                               | None => (shape Ciu).2 * (factors self + 1) end) np,
       r) ∧
    same_settings self1 self ∧
    (r = inl IndexError ∨ ∃ X, r = inr X ∧ user_factors self1 = Some X).
Proof.
  unfold init_user_factors.
  destruct (user_factors self) as [X|] eqn:HX.
  { exists self, (inr X). split_and!; try done. right. by exists X. }
  pose proof (rand_state (shape Ciu).2 (factors self + 1) np) as Hst.
  destruct (rand (shape Ciu).2 (factors self + 1) np) as [A np1]. simpl in Hst. subst np1.
  unfold zero_unrated. case_decide.
  - eexists _, _. split; [done|]. split_and!; try done. right. by eexists.
  - eexists _, _. split; [done|]. split_and!; try done. by left.
Qed.

Lemma fit_gpu_settings self Ciu X Y np self' np' out :
  _fit_gpu self Ciu X Y np = (self', np', out) → same_settings self' self.
Proof.
  unfold _fit_gpu. destruct (negb HAS_CUDA); [by intros [= <- _ _]|].
  destruct (gpu_epochs _ _ _ _ _ _ _) as [[[X' Y']|] np1]; by intros [= <- _ _].
Qed.

Lemma valid_schedule_empty threads sched : valid_schedule threads 0 sched → sched = [].
Proof.
  intros [Hperm _]. simpl in Hperm. apply Permutation_nil_r in Hperm.
  by destruct sched.
Qed.

Lemma epochs_empty dist Ciu learning_rate reg threads scheds n :
  row Ciu = [] → (∀ epoch, scheds epoch = []) →
  ∀ epoch rng0 X Y,
  epochs exp n epoch rng0 dist Ciu X Y learning_rate reg threads scheds =
    (X, Y, if decide (n = 0) then Returned else Raised ZeroDivisionError).
Proof.
  intros Hrow Hsched epoch rng0 X Y. destruct n as [|n]; [done|].
  simpl. unfold bpr_update. rewrite Hsched, Hrow. done.
Qed.

(** X7.  A call with a matrix that has no entry, on an object that holds
    both factor arrays, on the default path: the generators are seeded, and
    with no epoch to run the call returns; with at least one it raises
    [ZeroDivisionError] when the first epoch reports its share of
    correctly ranked samples.  Either way the factor arrays are the ones
    held before, whatever their shapes. *)
Theorem fit_empty_matrix self m np scheds X Y :
  user_factors self = Some X → item_factors self = Some Y → use_gpu self = false →
  row m = [] → col m = [] →
  (∀ epoch, valid_schedule (threads_of self) 0 (scheds epoch)) →
  fit exp self m np scheds =
    (set_item_factors (set_user_factors self X) Y,
     randints (threads_of self) np,
     if decide (iterations self = 0) then Returned else Raised ZeroDivisionError).
Proof.
  intros HX HY Hgpu Hrow Hcol Hsched.
  rewrite (fit_retained exp self m np scheds X Y HX HY Hgpu).
  destruct (fit_cpu_epochs exp self (coerce m) X Y np scheds)
    as (X' & Y' & out & Hep & ->).
  destruct (coerce_fields m) as (_ & Hr & _).
  rewrite epochs_empty in Hep.
  - injection Hep as <- <- <-. by rewrite seed_rngs_state.
  - by rewrite Hr.
  - intros epoch. by eapply valid_schedule_empty.
Qed.

(** X8.  A call changes no hyperparameter of the object, however it ends
    and on every path: [factors], [learning_rate], [regularization],
    [iterations], [use_gpu] and [num_threads] are after the call what they
    were before. *)
Theorem fit_keeps_settings self m np scheds self' np' out :
  fit exp self m np scheds = (self', np', out) → same_settings self' self.
Proof.
  unfold fit.
  destruct (init_item_factors_cases self (coerce m) np) as (s1 & r1 & -> & Hs1 & _ & _).
  destruct r1 as [e|Y]; [by intros [= <- _ _]|].
  destruct (init_user_factors_cases s1 (coerce m)
              (random_samples (match item_factors self with Some _ => 0
                               | None => (shape (coerce m)).1 * (factors self + 1) end) np))
    as (s2 & r2 & -> & Hs2 & _).
  destruct r2 as [e|X]; [intros [= <- _ _]; by eapply same_settings_trans|].
  destruct (use_gpu s2).
  - intros Hgpu. apply fit_gpu_settings in Hgpu.
    eapply same_settings_trans; [done|]. by eapply same_settings_trans.
  - destruct (fit_cpu_epochs exp s2 (coerce m) X Y
                (random_samples (match user_factors s1 with Some _ => 0
                               | None => (shape (coerce m)).2 * (factors s1 + 1) end)
                   (random_samples (match item_factors self with Some _ => 0
                               | None => (shape (coerce m)).1 * (factors self + 1) end) np))
                scheds) as (X' & Y' & out' & _ & ->).
    intros [= <- _ _]. eapply same_settings_trans; [|by eapply same_settings_trans].
    done.
Qed.


Lemma gpu_epochs_seeds n Ciu lr reg :
  length (row Ciu) ≠ 0 →
  ∀ X Y np, ∃ X' Y', gpu_epochs n Ciu X Y lr reg np = (Some (X', Y'), randints n np).
Proof.
  intros Hpos. induction n as [|n IH]; intros X Y np; simpl; [by eexists _, _|].
  destruct (randint (2 ^ 31) np) as [seed np1]. simpl.
  destruct (cu_bpr_update Ciu X Y lr reg seed) as [[X1 Y1] c].
  rewrite decide_False by done. apply IH.
Qed.

(** X10.  With [use_gpu] set, the CUDA extension built and both factor
    arrays held, the call hands the epochs to the extension and asks numpy
    for one seed for each epoch, not one for each worker; it depends on
    neither [exp] nor the schedules of the default path.  With an entry in
    the matrix it returns; with none and an epoch to run it raises
    [ZeroDivisionError] after the first epoch, one seed taken and the object
    as it was. *)
Theorem fit_gpu_seeds self m np scheds X Y self' np' out :
  use_gpu self = true → HAS_CUDA = true →
  user_factors self = Some X → item_factors self = Some Y →
  fit exp self m np scheds = (self', np', out) →
  (row m ≠ [] → out = Returned ∧ np' = randints (iterations self) np) ∧
  (row m = [] → 0 < iterations self →
   out = Raised ZeroDivisionError ∧ np' = randints 1 np ∧ self' = self) ∧
  (∀ exp' scheds', fit exp' self m np scheds' = (self', np', out)).
Proof.
  intros Hgpu Hcuda HX HY.
  assert (∀ e s, fit e self m np s = _fit_gpu self (coerce m) X Y np) as Hfit.
  { intros e s. unfold fit, init_item_factors, init_user_factors.
    by rewrite HY, HX, Hgpu. }
  rewrite Hfit. intros Hrun. split_and!; [| |by intros; rewrite Hfit].
  - intros Hrow. unfold _fit_gpu in Hrun. rewrite Hcuda in Hrun. simpl in Hrun.
    destruct (gpu_epochs_seeds (iterations self) (coerce m)
                (learning_rate self) (regularization self)) with (X := X) (Y := Y) (np := np)
      as (X' & Y' & Heq).
    { destruct (coerce_fields m) as (_ & -> & _). by destruct (row m). }
    rewrite Heq in Hrun. by simplify_eq.
  - intros Hrow Hpos. unfold _fit_gpu in Hrun. rewrite Hcuda in Hrun. simpl in Hrun.
    destruct (iterations self) as [|n]; [lia|]. simpl in Hrun.
    destruct (randint (2 ^ 31) np) as [seed np1] eqn:Hseed. 
    destruct (cu_bpr_update (coerce m) X Y (learning_rate self) (regularization self) seed)
      as [[X1 Y1] c].
    destruct (coerce_fields m) as (_ & Hr & _).
    rewrite decide_True in Hrun by (by rewrite Hr, Hrow).
    simplify_eq. split_and!; try done. simpl. by rewrite Hseed.
Qed.

End FitExtras.

(** * The properties on the reference instances *)

Import Reference.

Lemma valid_sequential n : valid_schedule 1 n (sequential n).
Proof.
  unfold sequential. split.
  - rewrite <-list_fmap_compose. by rewrite list_fmap_id.
  - apply Forall_fmap, Forall_forall. intros i _. simpl. lia.
Qed.


(** A new model on [second_user_only]: the counts reach both ends. *)
Lemma fit_unrated_rows_witness :
  ∃ X, user_factors (fit exp new_model second_user_only np0 (fun _ => sequential 1)).1.1
         = Some X ∧
       rows X !! 0 = Some [f32_zero; f32_one].
Proof.
  destruct (fit_unrated_rows exp new_model second_user_only np0 (fun _ => sequential 1))
    as (self' & np' & out & X & Y & Hfit & _ & HX & _ & _ & Hu).
  - reflexivity.
  - reflexivity.
  - reflexivity.
  - split; [reflexivity|]. split; repeat constructor.
  - reflexivity.
  - reflexivity.
  - intros _. apply valid_sequential.
  - exists X. rewrite Hfit. split; [exact HX|].
    apply (Hu 0); [simpl; lia|]. intros Hin.
    by repeat (apply elem_of_cons in Hin as [?|Hin]; [done|]); apply elem_of_nil in Hin.
Defined.

(** The run of one worker from [s0]. *)
Lemma bpr_update_correct_count_witness :
  ∃ s', bpr_update exp (rng s0) dist0 userids0 itemids0 X0 Y0 eta lambda 1
                   (sequential 2) = Some s' ∧
        (0 <= correct s' <= 2)%Z.
Proof.
  destruct (bpr_update_correct_count exp (rng s0) dist0 userids0 itemids0 X0 Y0
              eta lambda 1 (sequential 2) 2 2 1)
    as (s' & Hrun & _ & _ & Hc).
  - apply valid_sequential.
  - split.
    + reflexivity.
    + reflexivity.
    + repeat constructor.
    + repeat constructor.
    + split; reflexivity.
    + split; reflexivity.
    + repeat constructor.
    + right. simpl. lia.
  - exists s'. split; [exact Hrun|exact Hc].
Defined.

(** A worker that draws the position 1 twice. *)
Lemma bpr_update_sampling_witness :
  ∃ s', sample_body exp dist0 userids0 itemids0 eta lambda 0 0 s_twice = Some s'.
Proof.
  destruct (bpr_update_sampling exp dist0 userids0 itemids0 eta lambda 2 2 1 0 0 [] s_twice)
    as (g & pl & pd & g' & u & l & d & X' & Y' & hit & _ & _ & _ & _ & _ & _ & _ & _ & Hb).
  - split.
    + reflexivity.
    + reflexivity.
    + repeat constructor.
    + repeat constructor.
    + split; reflexivity.
    + split; reflexivity.
    + repeat constructor.
    + right. simpl. lia.
  - eexists. apply (Hb 0).
Defined.

(** The position 1 drawn twice: item 1 is the liked and the disliked item,
    the score is zero, and its row receives the liked store and then the
    disliked one. *)
Example twice_drawn_position_is_processed :
  ∃ s',
    draws dist0 [1; 1]%Z = (1%Z, 1%Z, []) ∧
    score_before_update dist0 userids0 itemids0 0 s_twice = Some f32_zero ∧
    sample_body exp dist0 userids0 itemids0 eta lambda 0 0 s_twice = Some s' ∧
    rows (Y_ s') !! 0 = rows Y0 !! 0 ∧
    rows (Y_ s') !! 1 ≠ rows Y0 !! 1.
Proof.
  eexists. split; [reflexivity|]. split; [vm_compute; reflexivity|].
  split; [vm_compute; reflexivity|]. split; [reflexivity|]. discriminate.
Qed.

(** The two orders of two samples on one worker. *)
Lemma bpr_update_single_worker_deterministic_witness :
  bpr_update exp (rng s0) dist0 userids0 itemids0 X0 Y0 eta lambda 1 [(0, 0); (0, 1)] =
  bpr_update exp (rng s0) dist0 userids0 itemids0 X0 Y0 eta lambda 1 [(0, 1); (0, 0)].
Proof.
  apply bpr_update_single_worker_deterministic.
  - split; [reflexivity|repeat constructor].
  - split; [apply perm_swap|repeat constructor].
Defined.





(** The model trained on three users and items, called on [likes]: the
    rows of user 2 and of item 2 stay. *)
Lemma fit_reuses_factors_witness :
  ∃ X Y X' Y',
    user_factors trained3 = Some X ∧ item_factors trained3 = Some Y ∧
    user_factors after_likes_on_trained3.1.1 = Some X' ∧
    item_factors after_likes_on_trained3.1.1 = Some Y' ∧
    rows X' !! 2 = rows X !! 2 ∧ rows Y' !! 2 = rows Y !! 2.
Proof.
  destruct (user_factors trained3) as [X|] eqn:HX; [|discriminate].
  destruct (item_factors trained3) as [Y|] eqn:HY; [|discriminate].
  destruct (fit_reuses_factors exp trained3 likes after_likes3.1.2
              (fun _ => sequential 2) X Y HX HY eq_refl)
    as (_ & X' & Y' & out & _ & Hfit & HfX & HfY & _).
  assert (fit exp trained3 likes after_likes3.1.2 (fun _ => sequential 2)
          = after_likes_on_trained3) as Heq by (vm_compute; reflexivity).
  rewrite Heq in Hfit. exists X, Y, X', Y'. rewrite Hfit. simpl.
  split; [reflexivity|]. split; [reflexivity|]. split; [reflexivity|].
  split; [reflexivity|].
  split; [apply HfX|apply HfY]; intros Hin;
    by repeat (apply elem_of_cons in Hin as [?|Hin]; [done|]); apply elem_of_nil in Hin.
Defined.

(** ** Where the specification and the program part *)

(** C2, as stated, fails: after a call on a new model, the row of user
    0, who has no entry, holds [1.0] in its last column. *)
Lemma unrated_user_row_not_zero :
  ∃ self' np' X,
    fit exp new_model second_user_only np0 (fun _ => sequential 1)
      = (self', np', Returned) ∧
    (0 ∉ col second_user_only) ∧
    user_factors self' = Some X ∧
    rows X !! 0 = Some [f32_zero; f32_one] ∧
    rows X !! 0 ≠ Some (replicate 2 f32_zero).
Proof.
  eexists _, _, _. split; [vm_compute; reflexivity|].
  split; [by intros [?|?%elem_of_nil]%elem_of_cons|].
  split; [reflexivity|]. split; [reflexivity|]. discriminate.
Qed.

(** The count vector of [np.bincount] stops at the last item that has an
    entry: on [first_item_only] the call raises, and the row of item 1, which
    has no entry, is left as it was drawn. *)
Example unrated_last_item_raises :
  ∃ self' np' Y y0 y1,
    fit exp new_model first_item_only np0 (fun _ => sequential 1)
      = (self', np', Raised IndexError) ∧
    (1 ∉ row first_item_only) ∧
    item_factors self' = Some Y ∧ user_factors self' = None ∧
    rows Y !! 1 = Some [y0; y1] ∧ y0 ≠ f32_zero ∧ y1 ≠ f32_zero.
Proof.
  eexists _, _, _, _, _. split; [vm_compute; reflexivity|].
  split; [by intros [?|?%elem_of_nil]%elem_of_cons|].
  split; [reflexivity|]. split; [reflexivity|]. split; [reflexivity|].
  split; discriminate.
Qed.

(** C3, as stated, fails: in the run from [s_tiny] the first score is
    [2^-100], above zero, and [exp] of it is [1.0] in double precision, so
    [z] is one half and the sample is not counted. *)
Lemma correct_count_not_positive_scores :
  ∃ s',
    bpr_update exp (rng s_tiny) dist0 [0; 0] [0; 1] X_tiny Y_tiny eta lambda 1
               (sequential 2) = Some s' ∧
    scores_before_update exp dist0 [0; 0] [0; 1] eta lambda (sequential 2) s_tiny
      = [f32 1 (-100); f32 12580864 (-27)] ∧
    Spec.positive_scores [f32 1 (-100); f32 12580864 (-27)] = 2%Z ∧
    correct s' = 1%Z.
Proof.
  eexists. split; [vm_compute; reflexivity|].
  split; [vm_compute; reflexivity|]. split; vm_compute; reflexivity.
Qed.


(** ** The further properties on the reference instances *)

Import Runs.

(** The run of one worker from [s_pairs]. *)
Lemma bpr_update_in_place_witness :
  layout (X_ end_pairs) = layout X0 ∧ layout (Y_ end_pairs) = layout Y0 ∧
  length (rng end_pairs) = 1.
Proof.
  destruct (bpr_update_in_place exp (rng s_pairs) dist0 userids0 itemids0 X0 Y0 eta lambda 1
              (sequential 2) end_pairs)
    as (_ & HX & _ & _ & HY & _ & Hr & _).
  - vm_compute. reflexivity.
  - split; [exact HX|]. split; [exact HY|exact Hr].
Defined.

(** The worker of [s_pairs] has drawn four times. *)
Lemma bpr_update_generators_witness :
  rng end_pairs = [advance dist0 4 [1; 1; 0; 0]%Z].
Proof.
  destruct (bpr_update_generators exp (rng s_pairs) dist0 userids0 itemids0 X0 Y0 eta
              lambda 1 (sequential 2) end_pairs)
    as (_ & _ & Hone).
  - vm_compute. reflexivity.
  - apply Hone; [apply valid_sequential|reflexivity].
Defined.



(** Two calls on [likes]. *)
Lemma fit_twice_witness :
  ∃ self1 np1 self2 np2,
    fit exp new_model likes np0 (fun _ => sequential 2) = (self1, np1, Returned) ∧
    fit exp self1 likes np1 (fun _ => sequential 2) = (self2, np2, Returned).
Proof.
  destruct (fit_twice exp new_model likes np0 (fun _ => sequential 2)
              (fun _ => sequential 2))
    as (self1 & np1 & self2 & np2 & X & Y & H1 & H2 & _).
  - reflexivity.
  - reflexivity.
  - reflexivity.
  - split; [reflexivity|]. split; repeat constructor.
  - simpl. lia.
  - intros [_ Hn]. apply Hn. simpl. repeat constructor.
  - intros [_ Hn]. apply Hn. simpl. repeat constructor.
  - intros _. apply valid_sequential.
  - intros _. apply valid_sequential.
  - by exists self1, np1, self2, np2.
Defined.

(** A new model on [first_user_only], called twice. *)
Lemma fit_retry_after_index_error_witness :
  ∃ self1 np1 self2 np2,
    fit exp new_model first_user_only np0 (fun _ => sequential 1)
      = (self1, np1, Raised IndexError) ∧
    fit exp self1 first_user_only np1 (fun _ => sequential 1) = (self2, np2, Returned).
Proof.
  destruct (fit_retry_after_index_error exp new_model first_user_only np0
              (fun _ => sequential 1) (fun _ => sequential 1))
    as (self1 & np1 & A & self2 & np2 & X & H1 & _ & _ & H2 & _).
  - reflexivity.
  - reflexivity.
  - reflexivity.
  - split; [reflexivity|]. split; repeat constructor.
  - simpl. lia.
  - intros [_ Hn]. apply Hn. simpl. repeat constructor.
  - split; [done|]. simpl. by intros [?|?%elem_of_nil]%elem_of_cons.
  - intros _. apply valid_sequential.
  - by exists self1, np1, self2, np2.
Defined.

(** The model trained on [likes3], called on [no_likes]. *)
Lemma fit_empty_matrix_witness :
  (fit exp trained3 no_likes np0 (fun _ => sequential 0)).2 = Raised ZeroDivisionError.
Proof.
  destruct (user_factors trained3) as [X|] eqn:HX; [|discriminate].
  destruct (item_factors trained3) as [Y|] eqn:HY; [|discriminate].
  rewrite (fit_empty_matrix exp trained3 no_likes np0 (fun _ => sequential 0) X Y HX HY).
  - reflexivity.
  - reflexivity.
  - reflexivity.
  - reflexivity.
  - intros _. apply valid_sequential.
Defined.

Lemma fit_keeps_settings_witness : same_settings after_second_user_only.1.1 new_model.
Proof.
  apply (fit_keeps_settings exp new_model second_user_only np0 (fun _ => sequential 1)
           after_second_user_only.1.1 after_second_user_only.1.2
           after_second_user_only.2).
  vm_compute. reflexivity.
Defined.


(** [gpu_trained] on the machine with the extension: two epochs. *)
Lemma fit_gpu_seeds_witness :
  after_gpu.2 = Returned ∧ after_gpu.1.2 = randints 2 np0.
Proof.
  destruct (@fit_gpu_seeds stream_sampler counter_random with_cuda exp gpu_trained likes
              np0 (fun _ => []) X0 Y0 after_gpu.1.1 after_gpu.1.2 after_gpu.2)
    as (Hret & _).
  - reflexivity.
  - reflexivity.
  - reflexivity.
  - reflexivity.
  - vm_compute. reflexivity.
  - apply Hret. discriminate.
Defined.
